(** * mt-toolbox: the Telegram media harvesters

    A shallow embedding of the three downloaders under [src/native]
    ([bot_downloader.py], [channel_comments_downloader.py],
    [topic_downloader.py]) and of their helper [telegram_utils.py].

    Conventions of the embedding.
    - A Python [str] is a Rocq [string] holding its UTF-8 bytes; substring and
      prefix tests on UTF-8 bytes agree with the tests on code points.  A
      Python [bytes] is a [string] too, byte for byte; decoding it checks
      that the bytes are well-formed UTF-8.
    - A Python [int] is a [Z].
    - A Telethon message is the record [Message] of the attributes the
      scripts read.
    - The remote side (message fetches, transfers, renames, the clock) is an
      oracle; what the scripts do to the outside world is recorded, in
      order, as a list of [Event]s threaded through a small state monad. *)

From Stdlib Require Import Ascii String DecimalString.
From Stdlib Require DecimalPos.
From stdpp Require Import gmap strings list sorting.

Local Open Scope string_scope.
Local Open Scope Z_scope.

(** ** Python string primitives *)

Module Py.

(** [s.startswith(p)] *)
Fixpoint startswith (s p : string) : bool :=
  match p, s with
  | EmptyString, _ => true
  | String _ _, EmptyString => false
  | String c p', String d s' => Ascii.eqb d c && startswith s' p'
  end.

(** [needle in hay] *)
Fixpoint contains (hay needle : string) : bool :=
  startswith hay needle ||
  match hay with
  | EmptyString => false
  | String _ hay' => contains hay' needle
  end.

(** [s.split(sep)] for a separator of one character; the result is never
    empty. *)
Fixpoint split (sep : ascii) (s : string) : list string :=
  match s with
  | EmptyString => [EmptyString]
  | String c s' =>
      if Ascii.eqb c sep then EmptyString :: split sep s'
      else match split sep s' with
           | h :: t => String c h :: t
           | [] => [String c EmptyString]
           end
  end.

(** [l[-1]] on a list of strings that is known to be non-empty. *)
Definition last_item (l : list string) : string := List.last l EmptyString.

(** [bool(s)]: a string is truthy when it is not empty. *)
Definition truthy (s : string) : bool :=
  match s with EmptyString => false | _ => true end.

(** [str(n)] *)
Definition str (n : Z) : string := NilZero.string_of_int (Z.to_int n).

(** [f"{n:03d}"]: at least three columns, padded with zeros after the
    sign. *)
Definition pad0 (width : nat) (digits : string) : string :=
  String.concat "" (replicate (width - String.length digits)%nat "0") +:+ digits.

Definition fmt_03d (n : Z) : string :=
  if n <? 0 then "-" +:+ pad0 2 (str (- n)) else pad0 3 (str n).

(** [c.isspace()] in the ASCII range: the blanks that [str.strip]
    removes. *)
Definition is_space (c : ascii) : bool :=
  let n := nat_of_ascii c in
  ((9 <=? n) && (n <=? 13) || (28 <=? n) && (n <=? 32))%nat.

(** The blanks that [int] skips around an ASCII literal: tab to carriage
    return, and the space. *)
Definition is_int_space (c : ascii) : bool :=
  let n := nat_of_ascii c in
  ((9 <=? n) && (n <=? 13) || (n =? 32))%nat.

Definition digit_val (c : ascii) : option Z :=
  let n := nat_of_ascii c in
  if ((48 <=? n) && (n <=? 57))%nat then Some (Z.of_nat (n - 48)) else None.

Fixpoint lstrip (s : string) : string :=
  match s with
  | String c s' => if is_space c then lstrip s' else s
  | EmptyString => EmptyString
  end.

Fixpoint skip_int_space (s : string) : string :=
  match s with
  | String c s' => if is_int_space c then skip_int_space s' else s
  | EmptyString => EmptyString
  end.

Fixpoint all_int_space (s : string) : bool :=
  match s with
  | String c s' => is_int_space c && all_int_space s'
  | EmptyString => true
  end.

(** The digits of a decimal literal: single underscores are allowed
    between digits, blanks are allowed after the last digit.
    [after_digit] tells whether the previous character was a digit. *)
Fixpoint int_digits (s : string) (acc : Z) (after_digit : bool) : option Z :=
  match s with
  | EmptyString => if after_digit then Some acc else None
  | String c s' =>
      if Ascii.eqb c "_" then
        if after_digit then int_digits s' acc false else None
      else if is_int_space c then
        if after_digit && all_int_space s' then Some acc else None
      else
        match digit_val c with
        | Some d => int_digits s' (10 * acc + d) true
        | None => None
        end
  end.

(** The value of a literal of any length: blanks, an optional sign, the
    digits, blanks. *)
Definition int_literal (s : string) : option Z :=
  match skip_int_space s with
  | String "-" s' => Z.opp <$> int_digits s' 0 false
  | String "+" s' => int_digits s' 0 false
  | s' => int_digits s' 0 false
  end.

(** [sys.get_int_max_str_digits()], at its default. *)
Definition int_max_str_digits : nat := 4300.

Fixpoint digit_count (s : string) : nat :=
  match s with
  | EmptyString => 0
  | String c s' =>
      (match digit_val c with Some _ => 1 | None => 0 end + digit_count s')%nat
  end.

(** [int(s)] in base ten on ASCII text; [None] stands for [ValueError],
    which is also what a literal of more than [int_max_str_digits] digits
    gets.  On text outside ASCII [int] reads more than this (the decimal
    digits and the blanks of other scripts): the embedding calls [int]
    on ASCII text only. *)
Definition int (s : string) : option Z :=
  if (int_max_str_digits <? digit_count s)%nat then None else int_literal s.

Definition in_range (lo hi : nat) (c : ascii) : bool :=
  let n := nat_of_ascii c in ((lo <=? n) && (n <=? hi))%nat.

Definition continuation (c : ascii) : bool := in_range 128 191 c.

(** [data.decode('utf-8')] succeeds: [s], taken as bytes, is well-formed
    UTF-8 (no stray or missing continuation byte, no overlong form, no
    surrogate, nothing above U+10FFFF). *)
Fixpoint utf8_valid (s : string) : bool :=
  match s with
  | EmptyString => true
  | String c1 s1 =>
      if in_range 0 127 c1 then utf8_valid s1
      else
        match s1 with
        | EmptyString => false
        | String c2 s2 =>
            if in_range 194 223 c1 then continuation c2 && utf8_valid s2
            else
              match s2 with
              | EmptyString => false
              | String c3 s3 =>
                  if in_range 224 239 c1 then
                    (if in_range 224 224 c1 then in_range 160 191 c2
                     else if in_range 237 237 c1 then in_range 128 159 c2
                     else continuation c2)
                    && continuation c3 && utf8_valid s3
                  else
                    match s3 with
                    | EmptyString => false
                    | String c4 s4 =>
                        in_range 240 244 c1
                        && (if in_range 240 240 c1 then in_range 144 191 c2
                            else if in_range 244 244 c1 then in_range 128 143 c2
                            else continuation c2)
                        && continuation c3 && continuation c4
                        && utf8_valid s4
                    end
              end
        end
  end.

End Py.

(** ** Data model *)

(** An inline button: its label and its callback data.  [data = None]
    stands for a button without the [data] attribute or with [data = None]
    (a URL button); callback data are [bytes], as Telethon gives them,
    held in a [string] byte for byte. *)
Record Button := { text : string; data : option string }.

(** The attributes of a Telethon message that the scripts read.  [document]
    holds the [mime_type] of the attached document.  [buttons = []] stands
    for [msg.buttons] being [None] or empty, which Python treats alike. *)
Record Message := {
  id : Z;
  out : bool;
  photo : bool;
  video : bool;
  document : option string;
  buttons : list (list Button)
}.

Inductive Kind := Image | Video | File.

#[global] Instance Kind_eq_dec : EqDecision Kind.
Proof. solve_decision. Defined.

(** A [pathlib.Path], as the list of its components. *)
Abbreviation Path := (list string).

(** [base / name] *)
Definition child (base : Path) (name : string) : Path := (base ++ [name])%list.

Definition images_label : string := "图片".
Definition videos_label : string := "视频".

(** [msg.photo or msg.video or msg.document] *)
Definition has_media (m : Message) : bool :=
  photo m || video m || bool_decide (is_Some (document m)).

(** The classification block shared, text for text, by
    [download_media_messages] (bot flow) and by the two
    [download_media_from_message] (comment and topic flows): the kind and
    the extension [ext], or [None] when the message carries no media. *)
Definition classify (m : Message) : option (Kind * string) :=
  if photo m then Some (Image, "jpg")
  else if video m then Some (Video, "mp4")
  else match document m with
       | Some mime_type =>
           if Py.startswith mime_type "image/" then
             Some (Image, Py.last_item (Py.split "/" mime_type))
           else if Py.startswith mime_type "video/" then
             Some (Video, Py.last_item (Py.split "/" mime_type))
           else
             Some (File, if Py.contains mime_type "/"
                         then Py.last_item (Py.split "/" mime_type)
                         else "bin")
       | None => None
       end.

(** [save_dir]: images and videos go to their subfolder, other files to the
    root. *)
Definition save_dir (base_dir : Path) (k : Kind) : Path :=
  match k with
  | Image => child base_dir images_label
  | Video => child base_dir videos_label
  | File => base_dir
  end.

(** [temp_filename = f"{idx:03d}.{ext}"] *)
Definition temp_filename (idx : Z) (ext : string) : string :=
  Py.fmt_03d idx +:+ "." +:+ ext.

(** [new_filename = f"{timestamp}_{temp_filename}"] *)
Definition new_filename (timestamp : Z) (temp : string) : string :=
  Py.str timestamp +:+ "_" +:+ temp.

(** ** The outside world *)

(** What happens to one item once [client.download_media] is called. *)
Inductive Outcome :=
| Completed (timestamp : Z)     (* transfer and rename succeed *)
| TransferFails                 (* [client.download_media] raises *)
| RenameFails (timestamp : Z).  (* [temp_filepath.rename] raises *)

Definition succeeded (o : Outcome) : bool :=
  match o with Completed _ => true | _ => false end.

(** What a script does to the outside world.  Every event names the
    message it is done for. *)
Inductive Event :=
| Mkdir (d : Path)                           (* [d.mkdir(parents=True, exist_ok=True)] *)
| Transfer (msg : Z) (d : Path) (name : string) (ok : bool)
                                             (* [client.download_media] into [d / name] *)
| Rename (msg : Z) (d : Path) (name name' : string) (ok : bool)
                                             (* [(d / name).rename(d / name')] *)
| LogFailure (msg : Z)                       (* the line "下载失败 (消息ID: msg)" *)
| Send (command : string)                    (* [client.send_message] *)
| GetMessages (page : Z)                     (* [client.get_messages(limit=50)] *)
| Click (msg : Z) (data : option string).    (* [msg.click(data=...)] *)

#[global] Instance Event_eq_dec : EqDecision Event.
Proof. solve_decision. Defined.

(** The state threaded through a run: the number of transfers started so
    far (it selects the next [Outcome] of the oracle) and the events so
    far, oldest first. *)
Record Sys := { transfers : nat; events : list Event }.

Definition start : Sys := {| transfers := 0; events := [] |}.

Definition M (A : Type) : Type := Sys -> A * Sys.

Definition ret {A} (a : A) : M A := fun s => (a, s).

Definition bind {A B} (m : M A) (k : A -> M B) : M B :=
  fun s => let '(a, s') := m s in k a s'.

Notation "x <- m ;; k" := (bind m (fun x => k))
  (at level 100, m at next level, right associativity).
Notation "m ;;; k" := (bind m (fun _ => k))
  (at level 100, right associativity).

Definition emit (e : Event) : M unit :=
  fun s => (tt, {| transfers := transfers s; events := (events s ++ [e])%list |}).

(** The next outcome of the oracle; the transfer counter advances. *)
Definition next_outcome (oracle : nat -> Outcome) : M Outcome :=
  fun s => (oracle (transfers s),
            {| transfers := S (transfers s); events := events s |}).

(** ** Sorting by message id *)

(** [l.sort(key=lambda m: m.id)]: stable, ascending. *)
Fixpoint insert_asc (m : Message) (l : list Message) : list Message :=
  match l with
  | [] => [m]
  | x :: l' => if id m <=? id x then m :: l else x :: insert_asc m l'
  end.

Definition sort_by_id (l : list Message) : list Message :=
  foldr insert_asc [] l.

(** [sorted(l, key=lambda m: m.id, reverse=True)]: stable, descending. *)
Fixpoint insert_desc (m : Message) (l : list Message) : list Message :=
  match l with
  | [] => [m]
  | x :: l' => if id x <=? id m then m :: l else x :: insert_desc m l'
  end.

Definition sort_by_id_desc (l : list Message) : list Message :=
  foldr insert_desc [] l.

(** [enumerate(l, start=i)] *)
Fixpoint enumerate {A} (i : Z) (l : list A) : list (Z * A) :=
  match l with
  | [] => []
  | x :: l' => (i, x) :: enumerate (i + 1) l'
  end.

(** ** Download execution *)

(** The tail of one item's [try] block, common to the three scripts: the
    transfer into [dir / temp_filename], then the rename to the
    timestamped name.  The result is [false] when one of the two raises. *)
Definition transfer_and_rename (oracle : nat -> Outcome) (msg : Message)
    (dir : Path) (idx : Z) (ext : string) : M bool :=
  let temp := temp_filename idx ext in
  o <- next_outcome oracle ;;
  match o with
  | TransferFails =>
      emit (Transfer (id msg) dir temp false) ;;;
      ret false
  | RenameFails timestamp =>
      emit (Transfer (id msg) dir temp true) ;;;
      emit (Rename (id msg) dir temp (new_filename timestamp temp) false) ;;;
      ret false
  | Completed timestamp =>
      emit (Transfer (id msg) dir temp true) ;;;
      emit (Rename (id msg) dir temp (new_filename timestamp temp) true) ;;;
      ret true
  end.

(** *** Bot flow: [bot_downloader.download_media_messages] *)

(** The [for idx, msg in enumerate(...)] loop with its [try]/[except]:
    [downloaded] counts the items that went through. *)
Fixpoint download_loop (oracle : nat -> Outcome) (base_dir : Path)
    (items : list (Z * Message)) (downloaded : Z) : M Z :=
  match items with
  | [] => ret downloaded
  | (idx, msg) :: rest =>
      match classify msg with
      | None => download_loop oracle base_dir rest downloaded
      | Some (kind, ext) =>
          ok <- transfer_and_rename oracle msg (save_dir base_dir kind) idx ext ;;
          if ok : bool then download_loop oracle base_dir rest (downloaded + 1)
          else
            emit (LogFailure (id msg)) ;;;
            download_loop oracle base_dir rest downloaded
      end
  end.

(** The messages the bot flow keeps: not sent by this client, with media. *)
Definition inbound_media (messages : list Message) : list Message :=
  List.filter (fun msg => negb (out msg) && has_media msg) messages.

Definition download_media_messages (oracle : nat -> Outcome)
    (messages : list Message) (base_dir : Path) (start_index : Z) : M Z :=
  let media_messages := inbound_media messages in
  match media_messages with
  | [] => ret 0
  | _ :: _ =>
      let media_messages := sort_by_id media_messages in
      emit (Mkdir (child base_dir images_label)) ;;;
      emit (Mkdir (child base_dir videos_label)) ;;;
      download_loop oracle base_dir
        (enumerate (start_index + 1) media_messages) 0
  end.

(** *** Comment and topic flows: [download_media_from_message]

    The function is the same, text for text, in
    [channel_comments_downloader.py] and in [topic_downloader.py]. *)
Definition download_media_from_message (oracle : nat -> Outcome)
    (message : Message) (base_dir : Path) (index : Z) : M bool :=
  match classify message with
  | None => ret false
  | Some (kind, ext) =>
      emit (Mkdir (save_dir base_dir kind)) ;;;
      ok <- transfer_and_rename oracle message (save_dir base_dir kind) index ext ;;
      if ok : bool then ret true
      else
        emit (LogFailure (id message)) ;;;
        ret false
  end.

(** [for idx, m in items: if await download_media_from_message(...):
    downloaded_count += 1] *)
Fixpoint download_each (oracle : nat -> Outcome) (out_dir : Path)
    (items : list (Z * Message)) (downloaded_count : Z) : M Z :=
  match items with
  | [] => ret downloaded_count
  | (idx, m) :: rest =>
      ok <- download_media_from_message oracle m out_dir idx ;;
      download_each oracle out_dir rest
        (if ok : bool then downloaded_count + 1 else downloaded_count)
  end.

(** [channel_comments_downloader.download_comments_media], from the point
    where the retrieval loop has gathered [comments] (line 197 on).  The
    items handed to the download loop are [comments_worklist]; the result
    is the final [downloaded_count], or [None] when the function returns
    before downloading. *)
Definition comments_worklist (comments : list Message) (start_from : Z)
    : option (list (Z * Message)) :=
  let media_comments := List.filter has_media comments in
  match media_comments with
  | [] => None
  | _ :: _ =>
      let media_comments := sort_by_id media_comments in
      if 1 <? start_from then
        if Z.of_nat (length media_comments) <? start_from then None
        else Some (enumerate start_from
                     (drop (Z.to_nat (start_from - 1)) media_comments))
      else Some (enumerate start_from media_comments)
  end.

Definition download_comments_media (oracle : nat -> Outcome)
    (comments : list Message) (out_dir : Path) (start_from : Z)
    : M (option Z) :=
  match comments_worklist comments start_from with
  | None => ret None
  | Some items =>
      n <- download_each oracle out_dir items 0 ;;
      ret (Some n)
  end.

(** [topic_downloader.download_topic_media], from the point where the
    retrieval loop has gathered [messages] (line 186 on). *)
Definition topic_worklist (messages : list Message)
    : option (list (Z * Message)) :=
  let media_messages := List.filter has_media messages in
  match media_messages with
  | [] => None
  | _ :: _ => Some (enumerate 1 (sort_by_id media_messages))
  end.

Definition download_topic_media (oracle : nat -> Outcome)
    (messages : list Message) (out_dir : Path) : M (option Z) :=
  match topic_worklist messages with
  | None => ret None
  | Some items =>
      n <- download_each oracle out_dir items 0 ;;
      ret (Some n)
  end.

(** ** Bot flow: the next-page button *)

Definition ARROW_TOKENS : list string := ["▶️"; "➡️"].

(** [hasattr(btn, 'data') and btn.data] *)
Definition has_callback (btn : Button) : bool :=
  match data btn with
  | Some d => Py.truthy d
  | None => false
  end.

(** The exception that [btn.data.decode('utf-8')] raises on bytes that
    are not well-formed UTF-8. *)
Inductive Raised := UnicodeDecodeError.

(** [btn.data.decode('utf-8')]: the decoded text has the bytes of the
    data as its UTF-8 bytes. *)
Definition decode (d : string) : Raised + string :=
  if Py.utf8_valid d then inr d else inl UnicodeDecodeError.

(** One turn of the inner [for btn in row] loop on the pair
    [(next_arrow_btn, next_page_btn)]; once the exception is raised the
    remaining turns are not run. *)
Definition scan_button (next_page_number : string)
    (acc : Raised + (option Button * option Button)) (btn : Button)
    : Raised + (option Button * option Button) :=
  match acc with
  | inl e => inl e
  | inr acc =>
      match data btn with
      | None => inr acc
      | Some d =>
          if negb (Py.truthy d) then inr acc
          else
            match decode d with
            | inl e => inl e
            | inr btn_data_str =>
                if String.eqb btn_data_str "page_info" then inr acc
                else if existsb (fun tok => Py.contains (text btn) tok) ARROW_TOKENS
                     then inr (Some btn, snd acc)
                else if Py.contains (text btn) next_page_number
                     then inr (fst acc, Some btn)
                else inr acc
            end
      end
  end.

Definition scan_rows (next_page_number : string)
    (rows : list (list Button)) : Raised + (option Button * option Button) :=
  foldl (fun acc row => foldl (scan_button next_page_number) acc row)
        (inr (None, None)) rows.

(** [bool(m.buttons)] *)
Definition has_buttons (m : Message) : bool :=
  match buttons m with [] => false | _ :: _ => true end.

(** [find_next_page_button]: [inl] when the exception leaves it, else
    the pair it returns, [None] standing for [(None, None)]. *)
Definition find_next_page_button (messages : list Message)
    (current_page : Z) : Raised + option (Message * Button) :=
  let sorted_messages :=
    sort_by_id_desc
      (List.filter (fun m => negb (out m) && has_buttons m) messages) in
  match sorted_messages with
  | [] => inr None
  | latest_msg :: _ =>
      let next_page_number := Py.str (current_page + 1) in
      match scan_rows next_page_number (buttons latest_msg) with
      | inl e => inl e
      | inr (next_arrow_btn, next_page_btn) =>
          match next_arrow_btn with
          | Some btn => inr (Some (latest_msg, btn))
          | None =>
              match next_page_btn with
              | Some btn => inr (Some (latest_msg, btn))
              | None => inr None
              end
          end
      end
  end.

(** ** Bot flow: [interact_with_bot] *)

(** The bot as the script sees it: the messages already in the
    conversation ([old_messages], newest first, what
    [get_messages(limit=1)] returns), what [get_messages(limit=50)]
    returns when the loop is at a given page (the loop fetches once per
    page), and the outcomes of the transfers. *)
Record Bot := {
  old_messages : list Message;
  recent_messages : Z -> list Message;
  bot_outcome : nat -> Outcome
}.

(** [HarvestState]: the three variables the loop updates. *)
Record Harvest := {
  total_downloaded : Z;
  current_page : Z;
  downloaded_msg_ids : gset Z
}.

(** How the [while] loop was left: by its condition, by one of its two
    [break]s, or by the exception of [find_next_page_button], which the
    handler of [interact_with_bot] prints and raises again. *)
Inductive Exit :=
| PageLimit        (* the loop condition [current_page <= max_pages] failed *)
| Stalled          (* [break] on "没有新消息" *)
| Done             (* [break] on "没有更多页面了" *)
| Aborted (e : Raised).

(** [[msg for msg in messages if msg.id > last_msg_id_before and msg.id
    not in downloaded_msg_ids]] *)
Definition new_messages_of (last_msg_id_before : Z) (seen : gset Z)
    (messages : list Message) : list Message :=
  List.filter
    (fun msg => (last_msg_id_before <? id msg) && negb (bool_decide (id msg ∈ seen)))
    messages.

(** [for msg in new_messages: if msg.photo or msg.video or msg.document:
    downloaded_msg_ids.add(msg.id)] *)
Definition mark_media (seen : gset Z) (new_messages : list Message) : gset Z :=
  foldl (fun s msg => if has_media msg then {[ id msg ]} ∪ s else s)
        seen new_messages.

(** The [while unlimited or current_page <= max_pages] loop.  One unit of
    [fuel] is spent per turn of the loop; the result is [None] when the
    fuel runs out before the loop is left. *)
Fixpoint pagination (fuel : nat) (bot : Bot) (out_dir : Path)
    (max_pages last_msg_id_before : Z) (h : Harvest)
    : M (option Exit * Harvest) :=
  let unlimited := max_pages =? 0 in
  if negb (unlimited || (current_page h <=? max_pages)) then
    ret (Some PageLimit, h)
  else
    match fuel with
    | O => ret (None, h)
    | S fuel' =>
        emit (GetMessages (current_page h)) ;;;
        let messages := recent_messages bot (current_page h) in
        let new_messages :=
          new_messages_of last_msg_id_before (downloaded_msg_ids h) messages in
        match new_messages with
        | [] => ret (Some Stalled, h)
        | _ :: _ =>
            let seen := mark_media (downloaded_msg_ids h) new_messages in
            downloaded <- download_media_messages (bot_outcome bot)
                            new_messages out_dir (total_downloaded h) ;;
            let h' := {| total_downloaded := total_downloaded h + downloaded;
                         current_page := current_page h;
                         downloaded_msg_ids := seen |} in
            match find_next_page_button new_messages (current_page h) with
            | inl e => ret (Some (Aborted e), h')
            | inr None => ret (Some Done, h')
            | inr (Some (msg_with_btn, next_btn)) =>
                emit (Click (id msg_with_btn) (data next_btn)) ;;;
                pagination fuel' bot out_dir max_pages last_msg_id_before
                  {| total_downloaded := total_downloaded h';
                     current_page := current_page h + 1;
                     downloaded_msg_ids := seen |}
            end
        end
    end.

(** [interact_with_bot], from the watermark on (the entity is resolved). *)
Definition interact_with_bot (fuel : nat) (bot : Bot) (start_param : string)
    (out_dir : Path) (max_pages : Z) : M (option Exit * Harvest) :=
  let last_msg_id_before :=
    match old_messages bot with
    | m :: _ => id m
    | [] => 0
    end in
  emit (Send ("/start " +:+ start_param)) ;;;
  pagination fuel bot out_dir max_pages last_msg_id_before
    {| total_downloaded := 0; current_page := 1; downloaded_msg_ids := ∅ |}.

(** ** Link parser *)

(** The fields of [urllib.parse.urlparse(url)] that the parsers read. *)
Record ParseResult := { netloc : string; path : string; query : string }.

(** The [ValueError] a parser raises, with its message. *)
Inductive LinkError := ValueError (message : string).

Definition accepted_hosts : list string :=
  ["t.me"; "telegram.me"; "www.t.me"; "www.telegram.me"].

(** [[p for p in u.path.split("/") if p]] *)
Definition path_parts (u : ParseResult) : list string :=
  List.filter Py.truthy (Py.split "/" (path u)).

(** [name[1:] if name.startswith("@") else name] *)
Definition strip_at (name : string) : string :=
  match name with
  | String "@" rest => rest
  | _ => name
  end.

Section LinkParser.

(** [urllib.parse.urlparse] and the builtin [int] are library functions:
    the parsers are embedded for any such functions.  [int_ s = None]
    stands for the [ValueError] of [int(s)]. *)
Variable urlparse : string -> ParseResult.
Variable int_ : string -> option Z.

Definition parse_channel_post_link (url : string)
    : LinkError + (string * Z) :=
  let u := urlparse url in
  if negb (bool_decide (netloc u ∈ accepted_hosts)) then
    inl (ValueError "请输入合法的 t.me 链接")
  else
    match path_parts u with
    | channel_username :: second :: _ =>
        let channel_username := strip_at channel_username in
        match int_ second with
        | Some message_id => inr (channel_username, message_id)
        | None => inl (ValueError "消息ID必须是数字")
        end
    | _ => inl (ValueError "链接路径不完整，缺少频道用户名或消息ID")
    end.

Definition parse_topic_link (url : string) : LinkError + (string * Z) :=
  let u := urlparse url in
  if negb (bool_decide (netloc u ∈ accepted_hosts)) then
    inl (ValueError "请输入合法的 t.me 链接")
  else
    match path_parts u with
    | channel_username :: second :: _ =>
        let channel_username := strip_at channel_username in
        match int_ second with
        | Some topic_id => inr (channel_username, topic_id)
        | None => inl (ValueError "话题ID必须是数字")
        end
    | _ =>
        inl (ValueError "链接格式不正确，应为 https://t.me/ChannelUsername/TopicID")
    end.

End LinkParser.

(** [urlparse] on URLs of the plain shape
    [scheme://netloc/path?query#fragment], without [;parameters], tabs or
    line breaks, which the library treats apart.  It is used to run the
    parsers on concrete links of that shape, never in a general
    statement. *)
Fixpoint take_until (stop : ascii -> bool) (s : string) : string * string :=
  match s with
  | EmptyString => (EmptyString, EmptyString)
  | String c s' =>
      if stop c then (EmptyString, s)
      else let '(a, b) := take_until stop s' in (String c a, b)
  end.

Fixpoint after_scheme (s : string) : string :=
  if Py.startswith s "://" then
    match s with
    | String _ (String _ (String _ rest)) => rest
    | _ => EmptyString
    end
  else
    match s with
    | EmptyString => EmptyString
    | String _ s' => after_scheme s'
    end.

Definition urlparse_plain (url : string) : ParseResult :=
  let eqc := Ascii.eqb in
  let '(host, rest) :=
    take_until (fun c => eqc c "/"%char || eqc c "?"%char || eqc c "#"%char) (after_scheme url) in
  let '(p, rest) := take_until (fun c => eqc c "?"%char || eqc c "#"%char) rest in
  let q := match rest with
           | String "?" r => fst (take_until (fun c => eqc c "#"%char) r)
           | _ => EmptyString
           end in
  {| netloc := host; path := p; query := q |}.

(** ** Byte sizes: [format_bytes] *)

(** [round(n / d)] to the nearest integer, ties to even, for [d > 0]. *)
Definition round_half_even (n d : Z) : Z :=
  let q := n / d in
  let r := n mod d in
  if 2 * r <? d then q
  else if d <? 2 * r then q + 1
  else if Z.even q then q else q + 1.

Definition two_digits (n : Z) : string :=
  Py.pad0 2 (Py.str n).

(** [f"{x:.2f}"] for the value [x = num / den], [den > 0]: the exact
    value is rounded to the hundredth, ties to even.

    [format_bytes] reaches this with [x] a byte count divided by a power
    of 1024.  The embedding covers the integer counts from 0 to [2^53]:
    there binary floating point holds the count and every quotient
    exactly, so that the text is the one Python prints.  From [2^53] on
    the conversion to [float] rounds, and the properties below do not
    speak of those counts. *)
Definition fmt_2f (num den : Z) : string :=
  let h := round_half_even (100 * Z.abs num) den in
  (if num <? 0 then "-" else "") +:+
  Py.str (h / 100) +:+ "." +:+ two_digits (h mod 100).

(** The [for unit in ['B', 'KB', 'MB', 'GB']] loop; [bytes_size] is
    [num / den]. *)
Fixpoint format_bytes_loop (units : list string) (num den : Z) : string :=
  match units with
  | [] => fmt_2f num den +:+ "TB"
  | unit :: units' =>
      if num <? 1024 * den then fmt_2f num den +:+ unit
      else format_bytes_loop units' num (1024 * den)
  end.

Definition format_bytes (bytes_size : Z) : string :=
  format_bytes_loop ["B"; "KB"; "MB"; "GB"] bytes_size 1.

Definition id_le (a b : Message) : Prop := id a <= id b.
Definition id_ge (a b : Message) : Prop := id b <= id a.

(** * The vocabulary of the properties *)

(** ** Media classifier *)

(** [sub] is the subtype of [mime]: what follows its [/] separator. *)
Definition subtype_of (mime sub : string) : Prop :=
  exists ty, mime = ty +:+ "/" +:+ sub /\ Py.contains sub "/" = false.

(** A document of type [video/webm], with neither photo nor video set. *)
Definition webm_message : Message :=
  {| id := 7; out := false; photo := false; video := false;
     document := Some "video/webm"; buttons := [] |}.

(** ** Link parser *)

(** The second path segment is the literal of a non-negative integer. *)
Definition nonneg_literal (segment : string) : Prop :=
  exists n, Py.int segment = Some n /\ 0 <= n.

(** The messages of the [ValueError]s, under the names the specification
    gives the errors. *)
Definition InvalidLink : LinkError := ValueError "请输入合法的 t.me 链接".
Definition InvalidMessageId : LinkError := ValueError "消息ID必须是数字".
Definition InvalidTopicId : LinkError := ValueError "话题ID必须是数字".

(** ** Byte sizes *)

Definition unit_names : list string := ["B"; "KB"; "MB"; "GB"; "TB"].

(** The unit of a byte count: the largest power of 1024, up to the fourth,
    that does not exceed it. *)
Definition unit_index (n : Z) : nat :=
  if n <? 1024 then 0
  else if n <? 1024 ^ 2 then 1
  else if n <? 1024 ^ 3 then 2
  else if n <? 1024 ^ 4 then 3
  else 4.

(** The character of a decimal digit. *)
Definition digit_char (d : Z) : ascii := ascii_of_nat (48 + Z.to_nat d).

(** [h] is the number of hundredths nearest to [num / den], the even one
    of the two when [num / den] lies halfway. *)
Definition nearest_hundredths (num den h : Z) : Prop :=
  2 * Z.abs (100 * num - h * den) <= den /\
  (2 * Z.abs (100 * num - h * den) = den -> Z.even h = true).

(** ** Bot flow: the next-page button *)

(** The messages whose buttons may be used: not sent by this client, with
    buttons. *)
Definition candidates (messages : list Message) : list Message :=
  List.filter (fun m => negb (out m) && has_buttons m) messages.

(** The most recent message of a list: the greatest id, the first listed
    among equals. *)
Fixpoint most_recent (l : list Message) : option Message :=
  match l with
  | [] => None
  | m :: l' =>
      match most_recent l' with
      | None => Some m
      | Some x => if id x <=? id m then Some m else Some x
      end
  end.

(** A button that may be clicked: it has callback data, other than
    [page_info]. *)
Definition qualifying (btn : Button) : bool :=
  has_callback btn && negb (bool_decide (data btn = Some "page_info")).

Definition has_arrow (btn : Button) : bool :=
  existsb (fun tok => Py.contains (text btn) tok) ARROW_TOKENS.

(** A button whose callback data the scan decodes and cannot: the data
    are there, not empty, and not well-formed UTF-8. *)
Definition undecodable (btn : Button) : bool :=
  has_callback btn &&
  match data btn with
  | Some d => negb (Py.utf8_valid d)
  | None => false
  end.

Definition has_page_number (page : Z) (btn : Button) : bool :=
  Py.contains (text btn) (Py.str page).

(** The choice among the buttons of one message, in reading order: an
    arrow button if there is one, else a button showing the next page
    number; the last one of its sort. *)
Definition choose_button (btns : list Button) (current_page : Z)
    : option Button :=
  let q := List.filter qualifying btns in
  match last (List.filter has_arrow q) with
  | Some btn => Some btn
  | None => last (List.filter (has_page_number (current_page + 1)) q)
  end.

(** Three messages with buttons: the newest was sent by this client, the
    next one shows the page numbers, the oldest an arrow. *)
Definition keyboard_messages : list Message :=
  [ {| id := 31; out := false; photo := false; video := false; document := None;
       buttons := [[ {| text := "▶️"; data := Some "older" |} ]] |};
    {| id := 33; out := true; photo := false; video := false; document := None;
       buttons := [[ {| text := "▶️"; data := Some "mine" |} ]] |};
    {| id := 32; out := false; photo := false; video := false; document := None;
       buttons := [[ {| text := "1/3"; data := Some "page_info" |};
                     {| text := "2"; data := Some "page_2" |};
                     {| text := "3"; data := Some "page_3" |} ];
                   [ {| text := "▶️ site"; data := None |} ]] |} ].

(** ** Traces of the download loops *)

(** The events of one transfer with its rename. *)
Definition attempt_events (o : Outcome) (msg : Z) (dir : Path) (temp : string)
    : list Event :=
  match o with
  | TransferFails => [Transfer msg dir temp false]
  | RenameFails timestamp =>
      [Transfer msg dir temp true;
       Rename msg dir temp (new_filename timestamp temp) false]
  | Completed timestamp =>
      [Transfer msg dir temp true;
       Rename msg dir temp (new_filename timestamp temp) true]
  end.

(** The events of one item; [lazy_dir] tells whether the folder is made
    right before the transfer (comment and topic flows) or not (bot
    flow). *)
Definition item_events (lazy_dir : bool) (o : Outcome) (base_dir : Path)
    (idx : Z) (m : Message) : list Event :=
  match classify m with
  | None => []
  | Some (kind, ext) =>
      ((if lazy_dir then [Mkdir (save_dir base_dir kind)] else []) ++
       attempt_events o (id m) (save_dir base_dir kind) (temp_filename idx ext) ++
       (if succeeded o then [] else [LogFailure (id m)]))%list
  end.

(** Items paired with the outcomes the oracle gives them, from transfer
    number [t] on. *)
Definition with_outcomes {A} (oracle : nat -> Outcome) (t : nat) (items : list A)
    : list (A * Outcome) :=
  zip items (oracle <$> seq t (length items)).

Definition batch_events (lazy_dir : bool) (base_dir : Path)
    (results : list ((Z * Message) * Outcome)) : list Event :=
  concat ((fun r => item_events lazy_dir r.2 base_dir r.1.1 r.1.2) <$> results).

Definition successes {A} (results : list (A * Outcome)) : list (A * Outcome) :=
  List.filter (fun r => succeeded r.2) results.

Definition failures {A} (results : list (A * Outcome)) : list (A * Outcome) :=
  List.filter (fun r => negb (succeeded r.2)) results.

(** Projections of a trace: the message ids of the transfers started, of
    the files that reached their final name, of the failures logged, and
    the folders made. *)
Definition attempted (evs : list Event) : list Z :=
  omap (fun e => match e with Transfer msg _ _ _ => Some msg | _ => None end) evs.

Definition saved (evs : list Event) : list Z :=
  omap (fun e => match e with Rename msg _ _ _ true => Some msg | _ => None end) evs.

Definition failures_logged (evs : list Event) : list Z :=
  omap (fun e => match e with LogFailure msg => Some msg | _ => None end) evs.

Definition folders_made (evs : list Event) : list Path :=
  omap (fun e => match e with Mkdir d => Some d | _ => None end) evs.

Definition all_media (items : list (Z * Message)) : Prop :=
  Forall (fun im => has_media im.2 = true) items.

(** The kind under which a message is filed. *)
Definition kind_of (m : Message) : option Kind := fst <$> classify m.

Definition result_id (r : (Z * Message) * Outcome) : Z := id r.1.2.

(** The bot flow's items: the inbound media messages of the page, oldest
    first, numbered after the files downloaded so far. *)
Definition bot_worklist (messages : list Message) (start_index : Z)
    : list (Z * Message) :=
  enumerate (start_index + 1) (sort_by_id (inbound_media messages)).

(** A photo received from the other side. *)
Definition photo_message (i : Z) : Message :=
  {| id := i; out := false; photo := true; video := false;
     document := None; buttons := [] |}.

(** An oracle under which the second transfer of a run fails, and the
    rename after the third. *)
Definition flaky (t : nat) : Outcome :=
  match t with
  | 1%nat => TransferFails
  | 2%nat => RenameFails 1700000000002
  | _ => Completed (1700000000000 + Z.of_nat t)
  end.

(** ** Comment flow: resuming from an offset *)

(** The transfers of a trace, each with the name of its file. *)
Definition transfer_names (evs : list Event) : list (Z * string) :=
  omap (fun e => match e with
                 | Transfer msg _ name _ => Some (msg, name)
                 | _ => None
                 end) evs.

(** The name an item is downloaded under: its index on three digits, then
    the extension of its kind. *)
Definition item_name (im : Z * Message) : option (Z * string) :=
  '(_, ext) ← classify im.2; Some (id im.2, temp_filename im.1 ext).

Definition all_completed (oracle : nat -> Outcome) : Prop :=
  forall t, succeeded (oracle t) = true.

(** Eleven comments, ten of them with media. *)
Definition ten_media_comments : list Message :=
  [photo_message 40; photo_message 22;
   {| id := 31; out := false; photo := false; video := false;
      document := None; buttons := [] |};
   photo_message 25; photo_message 21; webm_message; photo_message 29;
   photo_message 23; photo_message 35; photo_message 24; photo_message 30].

(** ** Destination folders *)

(** The folders that exist after a trace, from those that existed before:
    [mkdir(parents=True, exist_ok=True)] adds the folder if it is not
    there (its parent, the output folder, is made by [main]). *)
Definition mkdir (d : Path) (fs : gset Path) : gset Path := {[ d ]} ∪ fs.

Definition folders_after (fs : gset Path) (evs : list Event) : gset Path :=
  foldl (fun fs e => match e with Mkdir d => mkdir d fs | _ => fs end) fs evs.

(** The events of one item of the comment and topic flows: the folder of
    its kind is made, the transfer into that folder follows at once, and
    what comes after makes no folder and starts no transfer. *)
Definition lazy_block (base_dir : Path) (im : Z * Message) (block : list Event)
    : Prop :=
  exists kind ext ok rest,
    classify im.2 = Some (kind, ext) /\
    block = Mkdir (save_dir base_dir kind)
            :: Transfer (id im.2) (save_dir base_dir kind)
                 (temp_filename im.1 ext) ok
            :: rest /\
    folders_made rest = [] /\ attempted rest = [].

(** Two photos and a PDF. *)
Definition mixed_comments : list Message :=
  [photo_message 3;
   {| id := 2; out := false; photo := false; video := false;
      document := Some "application/pdf"; buttons := [] |};
   photo_message 1].

(** ** Outbound messages *)

(** [not m.out] *)
Definition inbound (m : Message) : bool := negb (out m).

(** A photo sent by this client. *)
Definition outbound_photo : Message :=
  {| id := 9; out := true; photo := true; video := false;
     document := None; buttons := [] |}.

(** ** Bot flow: the pagination loop *)

(** [last_msg_id_before] *)
Definition watermark (bot : Bot) : Z :=
  match old_messages bot with
  | m :: _ => id m
  | [] => 0
  end.

(** The new messages of the page the loop is at. *)
Definition page_new (bot : Bot) (last_msg_id_before : Z) (h : Harvest)
    : list Message :=
  new_messages_of last_msg_id_before (downloaded_msg_ids h)
    (recent_messages bot (current_page h)).

(** The pages fetched in a trace. *)
Definition pages_fetched (evs : list Event) : list Z :=
  omap (fun e => match e with GetMessages page => Some page | _ => None end) evs.


(** The state after one more event. *)
Definition log (e : Event) (s : Sys) : Sys :=
  {| transfers := transfers s; events := events s ++ [e] |}.

(** The invariant of the loop: no transfer was started twice for one
    message id, every file saved comes from a transfer, and the ids of
    the transfers started are all in the dedup set. *)
Record Safe (seen : gset Z) (s : Sys) : Prop := {
  safe_attempted : NoDup (attempted (events s));
  safe_saved : saved (events s) `sublist_of` attempted (events s);
  safe_seen : forall i, i ∈ attempted (events s) -> i ∈ seen
}.

(** An event that is neither a transfer nor a rename. *)
Definition quiet (e : Event) : Prop :=
  match e with
  | Transfer _ _ _ _ | Rename _ _ _ _ _ => False
  | _ => True
  end.

Definition arrow_button : Button := {| text := "下一页 ▶️"; data := Some "next" |}.

(** A bot with one page after the other: each page shows a new photo
    under an arrow button and lists the photo of the page before again. *)
Definition endless_bot : Bot :=
  {| old_messages := [photo_message 100];
     recent_messages := fun page =>
       [ {| id := 100 + page; out := false; photo := true; video := false;
            document := None; buttons := [[arrow_button]] |};
         photo_message (100 + page - 1) ];
     bot_outcome := flaky |}.




(** * The rest of the scripts *)

(** ** Comment and topic flows: retrieval *)

(** [batch_size = 100] *)
Definition batch_size : nat := 100.

(** The [while True] loop that gathers the comments of a post, or the
    messages of a topic: [get_batch offset_id] is what
    [client.get_messages(..., limit=batch_size, offset_id=offset_id)]
    returns, [acc] the list gathered so far.  One unit of [fuel] is spent
    per fetch; the result is [None] when the fuel runs out. *)
Fixpoint fetch_batches (fuel : nat) (get_batch : Z -> list Message)
    (offset_id : Z) (acc : list Message) : option (list Message) :=
  match fuel with
  | O => None
  | S fuel' =>
      let batch := get_batch offset_id in
      match batch with
      | [] => Some acc
      | _ :: _ =>
          let acc := (acc ++ batch)%list in
          if (length batch <? batch_size)%nat then Some acc
          else
            let offset_id :=
              match last batch with
              | Some m => id m
              | None => offset_id
              end in
            fetch_batches fuel' get_batch offset_id acc
      end
  end.

(** A channel as the comment and topic scripts see it: whether the entity
    is a [Channel]; what [get_messages(ids=message_id)] returns, that is
    no post, or the post with its [replies] attribute ([None], or the
    object with its count); the batches; the outcomes of the transfers. *)
Record Remote := {
  is_channel : bool;
  original_message : option (option Z);
  get_batch : Z -> list Message;
  remote_outcome : nat -> Outcome
}.

(** How a run of the comment or topic script ends. *)
Inductive Ending :=
| NotAChannel                             (* "提供的链接不是一个频道" *)
| PostNotFound                            (* "找不到指定的帖子" *)
| NoComments                              (* "此帖子没有评论功能或没有评论" *)
| Harvested (downloaded_count : option Z).

(** The two scripts from their first line on (the entity is resolved);
    the parts after the retrieval loop are [download_comments_media] and
    [download_topic_media] above. *)
Module Whole.

Definition download_comments_media (fuel : nat) (remote : Remote)
    (out_dir : Path) (start_from : Z) : M (option Ending) :=
  if negb (is_channel remote) then ret (Some NotAChannel)
  else
    match original_message remote with
    | None => ret (Some PostNotFound)
    | Some None => ret (Some NoComments)
    | Some (Some replies_count) =>
        match fetch_batches fuel (get_batch remote) 0 [] with
        | None => ret None
        | Some comments =>
            n <- download_comments_media (remote_outcome remote) comments
                   out_dir start_from ;;
            ret (Some (Harvested n))
        end
    end.

Definition download_topic_media (fuel : nat) (remote : Remote)
    (out_dir : Path) : M (option Ending) :=
  if negb (is_channel remote) then ret (Some NotAChannel)
  else
    match fetch_batches fuel (get_batch remote) 0 [] with
    | None => ret None
    | Some messages =>
        n <- download_topic_media (remote_outcome remote) messages out_dir ;;
        ret (Some (Harvested n))
    end.

End Whole.

(** ** The vocabulary of the retrieval properties *)

(** Newest first: every message is older than those listed before it. *)
Definition newer_first (a b : Message) : Prop := id b < id a.

#[global] Instance newer_first_dec : RelDecision newer_first.
Proof. intros a b. unfold newer_first. apply _. Defined.

(** The messages of a thread that are older than [offset_id] (all of
    them for [offset_id = 0]), and the batch a server holding the thread
    answers with: the first [batch_size] of them. *)
Definition older (thread : list Message) (offset_id : Z) : list Message :=
  if offset_id =? 0 then thread
  else List.filter (fun m => id m <? offset_id) thread.

Definition served (thread : list Message) (offset_id : Z) : list Message :=
  take batch_size (older thread offset_id).

(** A thread of [n] photos, newest first, with one text message after
    every fifth photo. *)
Definition text_message (i : Z) : Message :=
  {| id := i; out := false; photo := false; video := false;
     document := None; buttons := [] |}.

Definition long_thread (n : nat) : list Message :=
  (fun i => if (i mod 5 =? 0) then text_message i else photo_message i)
    <$> reverse (seqZ 1 (Z.of_nat n)).


(** ** The vocabulary of the bot loop's book-keeping *)

(** The clicks of a trace: the message clicked and the data sent. *)
Definition clicks (evs : list Event) : list (Z * option string) :=
  omap (fun e => match e with Click msg d => Some (msg, d) | _ => None end) evs.

(** A click the loop may make: on a message newer than the watermark,
    with callback data that is neither empty nor [page_info]. *)
Definition clickable (last_msg_id_before : Z) (c : Z * option string) : Prop :=
  last_msg_id_before < c.1 /\
  exists d, c.2 = Some d /\ d <> "" /\ d <> "page_info".

(** The books at the head of the loop. *)
Record Books (last_msg_id_before : Z) (h : Harvest) (s : Sys) : Prop := {
  books_total : total_downloaded h = Z.of_nat (length (saved (events s)));
  books_new : forall i, i ∈ attempted (events s) -> last_msg_id_before < i;
  books_clicks : Forall (clickable last_msg_id_before) (clicks (events s));
  books_pages : pages_fetched (events s) = seqZ 1 (current_page h - 1);
  books_clicked : length (clicks (events s)) = Z.to_nat (current_page h - 1);
  books_page : 1 <= current_page h
}.

(** The books when the loop is left, or the fuel spent. *)
Definition closing (last_msg_id_before : Z)
    (r : option Exit * Harvest * Sys) : Prop :=
  let fetched := length (pages_fetched (events r.2)) in
  total_downloaded r.1.2 = Z.of_nat (length (saved (events r.2))) /\
  (forall i, i ∈ attempted (events r.2) -> last_msg_id_before < i) /\
  Forall (clickable last_msg_id_before) (clicks (events r.2)) /\
  pages_fetched (events r.2) = seqZ 1 (Z.of_nat fetched) /\
  match r.1.1 with
  | Some Stalled | Some Done | Some (Aborted _) =>
      (length (clicks (events r.2)) + 1)%nat = fetched /\
      current_page r.1.2 = Z.of_nat fetched
  | Some PageLimit | None =>
      length (clicks (events r.2)) = fetched /\
      current_page r.1.2 = Z.of_nat fetched + 1
  end.

(** The endless bot when nothing fails. *)
Definition steady_bot : Bot :=
  {| old_messages := old_messages endless_bot;
     recent_messages := recent_messages endless_bot;
     bot_outcome := fun t => Completed (1700000000000 + Z.of_nat t) |}.

(** ** The vocabulary of the naming properties *)

(** Every character of [s] passes the test [p]. *)
Fixpoint all_chars (p : ascii -> bool) (s : string) : bool :=
  match s with
  | EmptyString => true
  | String c s' => p c && all_chars p s'
  end.

(** A character of a decimal numeral: a digit, or the minus sign. *)
Definition numeral_char (c : ascii) : bool :=
  bool_decide (is_Some (Py.digit_val c)) || Ascii.eqb c "-".

(** The path of a link to the post [n] of the channel [name]. *)
Definition post_path (name : string) (n : Z) : string :=
  "/" +:+ name +:+ "/" +:+ Py.str n.

(** ** Bot deep link: [bot_downloader.parse_bot_deeplink] *)

(** The errors of [parse_bot_deeplink]: the [ValueError]s it raises, and
    the [IndexError] of [query_params['start'][0]] on an empty list of
    values. *)
Inductive DeepLinkError :=
| LinkRejected (e : LinkError)
| NoStartValue.

Section DeepLink.

(** [urllib.parse.urlparse] and [urllib.parse.parse_qs] are library
    functions: the parser is embedded for any such functions. *)
Variable urlparse : string -> ParseResult.
Variable parse_qs : string -> gmap string (list string).

Definition parse_bot_deeplink (url : string)
    : DeepLinkError + (string * string) :=
  let u := urlparse url in
  if negb (bool_decide (netloc u ∈ accepted_hosts)) then
    inl (LinkRejected (ValueError "请输入合法的 t.me 链接"))
  else
    match path_parts u with
    | [] => inl (LinkRejected (ValueError "链接路径不完整，缺少Bot用户名"))
    | bot_username :: _ =>
        let bot_username := strip_at bot_username in
        let query_params := parse_qs (query u) in
        match query_params !! "start" with
        | Some (start_param :: _) => inr (bot_username, start_param)
        | Some [] => inl NoStartValue
        | None => inl (LinkRejected (ValueError "缺少start参数"))
        end
    end.

End DeepLink.

(** [parse_qs] on queries of the plain shape [k=v&k=v], without escapes:
    a field with a blank value is dropped, as the library does by default.
    Used to run the parser on concrete links. *)
Definition parse_qs_plain (query : string) : gmap string (list string) :=
  foldl (fun (params : gmap string (list string)) field =>
           let '(k, rest) := take_until (fun c => Ascii.eqb c "=") field in
           match rest with
           | String _ (String c v) =>
               <[ k := (default [] (params !! k) ++ [String c v])%list ]> params
           | _ => params
           end)
        ∅ (Py.split "&" query).

(** ** Login: [custom_login] *)

(** [s.strip()], for the whitespace of the ASCII range. *)
Fixpoint rstrip (s : string) : string :=
  match s with
  | EmptyString => EmptyString
  | String c s' =>
      match rstrip s' with
      | EmptyString => if Py.is_space c then EmptyString else String c EmptyString
      | r => String c r
      end
  end.

Definition strip (s : string) : string := rstrip (Py.lstrip s).

(** What the client answers: to [send_code_request], to
    [sign_in(phone, code)] and to [sign_in(password=...)].  Each reply but
    the first of its type is an exception. *)
Inductive CodeReply := CodeSent | FloodWait (seconds : Z) | CodeFailed.

Inductive SignInReply :=
| SignedIn | SessionPasswordNeeded | PhoneCodeInvalid | SignInFailed.

Inductive PasswordReply :=
| PasswordAccepted | PasswordHashInvalid | PasswordFailed.

Record Account := {
  send_code_request : string -> CodeReply;
  sign_in : string -> string -> SignInReply;
  sign_in_password : string -> PasswordReply
}.

(** What [custom_login] does: the three prompts, and the calls of the
    client with their arguments. *)
Inductive LoginEvent :=
| AskPhone | AskCode | AskPassword
| CodeRequest (phone : string)
| SignIn (phone code : string)
| SignInPassword (password : string).

(** How [custom_login] ends: it returns, or [input()] finds the input
    closed, or [sign_in(password=...)] raises something else than
    [PasswordHashInvalidError], which no handler catches. *)
Inductive LoginResult := Returned (ok : bool) | InputClosed | Escaped.

(** [custom_login], the same in [telegram_utils.py] and in
    [bot_downloader.py]; [lines] are the lines that [input()] will read. *)
Definition custom_login (client : Account) (lines : list string)
    : LoginResult * list LoginEvent :=
  match lines with
  | [] => (InputClosed, [AskPhone])
  | line :: lines =>
      let phone := strip line in
      if negb (Py.truthy phone) then (Returned false, [AskPhone])
      else
        match send_code_request client phone with
        | FloodWait _ | CodeFailed =>
            (Returned false, [AskPhone; CodeRequest phone])
        | CodeSent =>
            match lines with
            | [] => (InputClosed, [AskPhone; CodeRequest phone; AskCode])
            | line :: lines =>
                let code := strip line in
                if negb (Py.truthy code) then
                  (Returned false, [AskPhone; CodeRequest phone; AskCode])
                else
                  let so_far :=
                    [AskPhone; CodeRequest phone; AskCode; SignIn phone code] in
                  match sign_in client phone code with
                  | SignedIn => (Returned true, so_far)
                  | PhoneCodeInvalid | SignInFailed => (Returned false, so_far)
                  | SessionPasswordNeeded =>
                      match lines with
                      | [] => (InputClosed, so_far ++ [AskPassword])%list
                      | line :: _ =>
                          let password := strip line in
                          if negb (Py.truthy password) then
                            (Returned false, so_far ++ [AskPassword])%list
                          else
                            let all :=
                              (so_far ++ [AskPassword; SignInPassword password])%list in
                            match sign_in_password client password with
                            | PasswordAccepted => (Returned true, all)
                            | PasswordHashInvalid => (Returned false, all)
                            | PasswordFailed => (Escaped, all)
                            end
                      end
                  end
            end
        end
  end.

(** ** The vocabulary of the login and formatting properties *)

(** A call of the client with no blank argument, each argument free of
    surrounding whitespace. *)
Definition trimmed (s : string) : Prop := s <> "" /\ strip s = s.

Definition well_formed_call (e : LoginEvent) : Prop :=
  match e with
  | CodeRequest phone => trimmed phone
  | SignIn phone code => trimmed phone /\ trimmed code
  | SignInPassword password => trimmed password
  | AskPhone | AskCode | AskPassword => True
  end.

(** An account that asks for the password ["hunter2"]. *)
Definition guarded_account : Account :=
  {| send_code_request := fun _ => CodeSent;
     sign_in := fun _ _ => SessionPasswordNeeded;
     sign_in_password := fun p =>
       if String.eqb p "hunter2" then PasswordAccepted else PasswordHashInvalid |}.


(** * Properties *)

(** ** The primitives on examples *)
Example split_mime : Py.split "/" "video/webm" = ["video"; "webm"].
Proof. reflexivity. Qed.

Example split_leading : Py.split "/" "/chan/12/" = [""; "chan"; "12"; ""].
Proof. reflexivity. Qed.

Example fmt_03d_7 : Py.fmt_03d 7 = "007".
Proof. reflexivity. Qed.

Example fmt_03d_1234 : Py.fmt_03d 1234 = "1234".
Proof. reflexivity. Qed.

Example fmt_03d_neg : Py.fmt_03d (-1) = "-01".
Proof. reflexivity. Qed.

Example int_examples :
  Py.int "42" = Some 42 /\ Py.int "-5" = Some (-5) /\ Py.int "007" = Some 7 /\
  Py.int "1_000" = Some 1000 /\ Py.int " 12 " = Some 12 /\
  Py.int "12a" = None /\ Py.int "" = None /\ Py.int "-" = None /\
  Py.int "1__0" = None /\ Py.int "_1" = None /\ Py.int "1 2" = None /\
  Py.int (String (ascii_of_nat 28) "12") = None /\
  Py.int (String (ascii_of_nat 11) "12") = Some 12 /\
  Py.int (String.concat "" (replicate 4300 "1")) <> None /\
  Py.int (String.concat "" (replicate 4301 "0")) = None.
Proof. repeat split; try reflexivity. by vm_compute. Qed.

Example utf8_valid_examples :
  Py.utf8_valid "page_2" = true /\ Py.utf8_valid "▶️" = true /\
  Py.utf8_valid (String (ascii_of_nat 255) (String (ascii_of_nat 254) "")) = false /\
  Py.utf8_valid (String (ascii_of_nat 192) (String (ascii_of_nat 128) "")) = false /\
  Py.utf8_valid (String (ascii_of_nat 237) (String (ascii_of_nat 160)
                   (String (ascii_of_nat 128) ""))) = false /\
  Py.utf8_valid (String (ascii_of_nat 244) (String (ascii_of_nat 143)
                   (String (ascii_of_nat 191) (String (ascii_of_nat 191) "")))) = true /\
  Py.utf8_valid (String (ascii_of_nat 244) (String (ascii_of_nat 144)
                   (String (ascii_of_nat 128) (String (ascii_of_nat 128) "")))) = false /\
  Py.utf8_valid (String (ascii_of_nat 226) (String (ascii_of_nat 150) "")) = false.
Proof. repeat split; reflexivity. Qed.

Example urlparse_plain_post :
  urlparse_plain "https://t.me/@chan/12?single#x"
  = {| netloc := "t.me"; path := "/@chan/12"; query := "single" |}.
Proof. reflexivity. Qed.

(** ** Ordering lemmas *)

Lemma insert_asc_perm m l : insert_asc m l ≡ₚ m :: l.
Proof.
  induction l as [|x l IH]; simpl; [done|].
  destruct (id m <=? id x); [done|].
  rewrite IH. apply Permutation_swap.
Qed.

Lemma sort_by_id_perm l : sort_by_id l ≡ₚ l.
Proof.
  induction l as [|x l IH]; simpl; [done|].
  unfold sort_by_id in IH. by rewrite insert_asc_perm, IH.
Qed.

Lemma insert_desc_perm m l : insert_desc m l ≡ₚ m :: l.
Proof.
  induction l as [|x l IH]; simpl; [done|].
  destruct (id x <=? id m); [done|].
  rewrite IH. apply Permutation_swap.
Qed.

Lemma sort_by_id_desc_perm l : sort_by_id_desc l ≡ₚ l.
Proof.
  induction l as [|x l IH]; simpl; [done|].
  unfold sort_by_id_desc in IH. by rewrite insert_desc_perm, IH.
Qed.

Lemma insert_asc_sorted m l :
  StronglySorted id_le l -> StronglySorted id_le (insert_asc m l).
Proof.
  induction l as [|x l IH]; simpl; intros Hs.
  - repeat constructor.
  - apply StronglySorted_cons in Hs as [Hx Hl].
    destruct (id m <=? id x) eqn:E.
    + apply Z.leb_le in E. apply StronglySorted_cons. split.
      * constructor; [done|].
        eapply Forall_impl; [exact Hx|]. unfold id_le. intros; simpl in *; lia.
      * by apply StronglySorted_cons.
    + apply Z.leb_gt in E. apply StronglySorted_cons. split; [|by apply IH].
      rewrite insert_asc_perm. constructor; [unfold id_le; lia | done].
Qed.

Lemma sort_by_id_sorted l : StronglySorted id_le (sort_by_id l).
Proof.
  induction l as [|x l IH]; simpl; [constructor|].
  by apply insert_asc_sorted.
Qed.

Lemma insert_desc_sorted m l :
  StronglySorted id_ge l -> StronglySorted id_ge (insert_desc m l).
Proof.
  induction l as [|x l IH]; simpl; intros Hs.
  - repeat constructor.
  - apply StronglySorted_cons in Hs as [Hx Hl].
    destruct (id x <=? id m) eqn:E.
    + apply Z.leb_le in E. apply StronglySorted_cons. split.
      * constructor; [done|].
        eapply Forall_impl; [exact Hx|]. unfold id_ge. intros; simpl in *; lia.
      * by apply StronglySorted_cons.
    + apply Z.leb_gt in E. apply StronglySorted_cons. split; [|by apply IH].
      rewrite insert_desc_perm. constructor; [unfold id_ge; lia | done].
Qed.

Lemma sort_by_id_desc_sorted l : StronglySorted id_ge (sort_by_id_desc l).
Proof.
  induction l as [|x l IH]; simpl; [constructor|].
  by apply insert_desc_sorted.
Qed.

Lemma sort_by_id_length l : length (sort_by_id l) = length l.
Proof. by rewrite sort_by_id_perm. Qed.

Lemma sort_by_id_nil_inv l : sort_by_id l = [] -> l = [].
Proof.
  intros H. apply Permutation_nil_r. by rewrite <- H, sort_by_id_perm.
Qed.

Lemma enumerate_fst {A} i (l : list A) :
  (enumerate i l).*1 = seqZ i (Z.of_nat (length l)).
Proof.
  revert i. induction l as [|x l IH]; intros i; simpl; [done|].
  rewrite IH. rewrite (seqZ_cons i) by lia. do 2 f_equal; lia.
Qed.

Lemma enumerate_snd {A} i (l : list A) : (enumerate i l).*2 = l.
Proof. revert i. induction l as [|x l IH]; intros i; simpl; [done|]. by rewrite IH. Qed.

(** ** Classification lemmas *)

Lemma has_media_classify m : has_media m = true <-> is_Some (classify m).
Proof.
  unfold has_media, classify.
  destruct (photo m), (video m); simpl; try (split; eauto; fail).
  destruct (document m) as [mime|]; simpl.
  - split; [|done]. intros _. repeat case_match; eauto.
  - split; [done|]. by intros [? ?].
Qed.

Lemma classify_None m : classify m = None <-> has_media m = false.
Proof.
  rewrite <- not_true_iff_false, has_media_classify, eq_None_not_Some. done.
Qed.

(** ** Media classifier *)

Lemma contains_slash_cons c s :
  Py.contains (String c s) "/" = Ascii.eqb c "/" || Py.contains s "/".
Proof.
  cbn [Py.contains Py.startswith]. by destruct s, (Ascii.eqb c "/").
Qed.

Lemma split_no_slash s : Py.contains s "/" = false -> Py.split "/" s = [s].
Proof.
  induction s as [|c s IH]; [done|].
  rewrite contains_slash_cons. intros [Hc Hs]%orb_false_iff.
  simpl. rewrite Hc, (IH Hs). done.
Qed.

Lemma split_slash_last ty sub :
  Py.contains sub "/" = false ->
  exists h t, Py.split "/" (ty +:+ "/" +:+ sub) = (h :: t ++ [sub])%list.
Proof.
  intros Hsub. induction ty as [|c ty (h & t & IH)]; simpl.
  - exists EmptyString, []. by rewrite split_no_slash.
  - rewrite IH. destruct (Ascii.eqb c "/").
    + by exists EmptyString, (h :: t).
    + by exists (String c h), t.
Qed.

Lemma last_item_subtype mime sub :
  subtype_of mime sub -> Py.last_item (Py.split "/" mime) = sub.
Proof.
  intros (ty & -> & Hsub).
  destruct (split_slash_last ty sub Hsub) as (h & t & ->).
  unfold Py.last_item.
  change (h :: t ++ [sub])%list with ((h :: t) ++ [sub])%list.
  apply List.last_last.
Qed.

Lemma subtype_contains_slash mime sub :
  subtype_of mime sub -> Py.contains mime "/" = true.
Proof.
  intros (ty & -> & _). induction ty as [|c ty IH].
  - simpl. by destruct sub.
  - change (String c ty +:+ "/" +:+ sub) with (String c (ty +:+ "/" +:+ sub)).
    rewrite contains_slash_cons, IH. apply orb_true_r.
Qed.

Lemma startswith_slash s p :
  Py.startswith s p = true -> Py.contains p "/" = true -> Py.contains s "/" = true.
Proof.
  revert s. induction p as [|c p IH]; intros s Hs Hp; [done|].
  destruct s as [|d s]; [done|].
  cbn [Py.startswith] in Hs. apply andb_true_iff in Hs as [Hdc Hs].
  apply Ascii.eqb_eq in Hdc as ->.
  rewrite contains_slash_cons in Hp |- *.
  destruct (Ascii.eqb c "/"); [done|]. simpl in *. by apply IH.
Qed.

Lemma startswith_no_slash s p :
  Py.contains s "/" = false -> Py.contains p "/" = true ->
  Py.startswith s p = false.
Proof.
  intros Hs Hp. destruct (Py.startswith s p) eqn:E; [|done].
  by rewrite (startswith_slash s p E Hp) in Hs.
Qed.

(** C3.  A message with a document payload and neither a photo nor a
    video is classified by its MIME type: [image/...] is an [Image],
    [video/...] a [Video], anything else a [File]; the extension is the
    subtype, or [bin] when the MIME type has no [/].  [video/webm] is a
    [Video] with extension [webm], saved under the video subfolder. *)
Theorem classify_document_by_mime (m : Message) (mime : string) :
  photo m = false -> video m = false -> document m = Some mime ->
  (forall sub, subtype_of mime sub ->
     (Py.startswith mime "image/" = true -> classify m = Some (Image, sub)) /\
     (Py.startswith mime "image/" = false ->
      Py.startswith mime "video/" = true -> classify m = Some (Video, sub)) /\
     (Py.startswith mime "image/" = false ->
      Py.startswith mime "video/" = false -> classify m = Some (File, sub))) /\
  (Py.contains mime "/" = false -> classify m = Some (File, "bin")) /\
  (mime = "video/webm" ->
     classify m = Some (Video, "webm") /\
     forall base_dir, save_dir base_dir Video = child base_dir videos_label).
Proof.
  intros Hp Hv Hd. unfold classify. rewrite Hp, Hv, Hd. split; [|split].
  - intros sub Hsub.
    rewrite (last_item_subtype _ _ Hsub), (subtype_contains_slash _ _ Hsub).
    repeat split; intros; repeat case_match; congruence.
  - intros Hno.
    rewrite (startswith_no_slash mime "image/"), (startswith_no_slash mime "video/")
      by done.
    by rewrite Hno.
  - intros ->. split; [reflexivity | done].
Qed.

Lemma classify_document_by_mime_witness :
  classify webm_message = Some (Video, "webm") /\
  save_dir ["downloads"] Video = ["downloads"; videos_label] /\
  subtype_of "video/webm" "webm".
Proof.
  destruct (classify_document_by_mime webm_message "video/webm"
              eq_refl eq_refl eq_refl) as (Hsub & _ & H).
  assert (subtype_of "video/webm" "webm") as Hw by (by exists "video").
  destruct (Hsub "webm" Hw) as (_ & Hvideo & _).
  destruct (H eq_refl) as [_ Hs].
  split; [exact (Hvideo eq_refl eq_refl)|]. split; [exact (Hs ["downloads"]) | exact Hw].
Defined.

(** ** Link parser *)

(** C4, as stated, fails on a negative id: the host is accepted, the path
    has two segments, the second is not the literal of a non-negative
    integer, and yet the link is parsed, to the id [-5]. *)
Lemma parse_channel_post_link_negative_id :
  let url := "https://t.me/chan/-5" in
  netloc (urlparse_plain url) ∈ accepted_hosts /\
  path_parts (urlparse_plain url) = ["chan"; "-5"] /\
  ~ nonneg_literal "-5" /\
  parse_channel_post_link urlparse_plain Py.int url = inr ("chan", -5) /\
  parse_channel_post_link urlparse_plain Py.int url <> inl InvalidMessageId.
Proof.
  repeat split.
  - apply (bool_decide_unpack _); by vm_compute.
  - intros (n & Hn & Hpos). vm_compute in Hn. injection Hn as <-. lia.
  - discriminate.
Qed.

(** C4, amended.  With an accepted host and at least two non-empty path
    segments, [parse_channel_post_link] succeeds exactly when [int]
    accepts the second segment, and then returns the first segment
    without its leading [@] and that integer, negative or not; otherwise
    it fails with the message of [InvalidMessageId].  [parse_topic_link]
    does the same, with a message of its own. *)
Theorem parse_channel_post_link_int (urlparse : string -> ParseResult)
    (int_ : string -> option Z) (url name second : string)
    (rest : list string) :
  netloc (urlparse url) ∈ accepted_hosts ->
  path_parts (urlparse url) = name :: second :: rest ->
  parse_channel_post_link urlparse int_ url =
    match int_ second with
    | Some message_id => inr (strip_at name, message_id)
    | None => inl InvalidMessageId
    end /\
  parse_topic_link urlparse int_ url =
    match int_ second with
    | Some topic_id => inr (strip_at name, topic_id)
    | None => inl InvalidTopicId
    end.
Proof.
  intros Hhost Hparts. unfold parse_channel_post_link, parse_topic_link.
  rewrite (bool_decide_eq_true_2 _ Hhost), Hparts. simpl. done.
Qed.

Lemma parse_channel_post_link_int_witness :
  parse_channel_post_link urlparse_plain Py.int
    "https://telegram.me/@chan/0042/x?single" = inr ("chan", 42) /\
  parse_topic_link urlparse_plain Py.int "https://t.me/chan/12a"
    = inl InvalidTopicId.
Proof.
  split.
  - refine (eq_trans (proj1 (parse_channel_post_link_int urlparse_plain Py.int
      "https://telegram.me/@chan/0042/x?single" "@chan" "0042" ["x"] _ _)) _).
    + apply (bool_decide_unpack _); by vm_compute.
    + reflexivity.
    + reflexivity.
  - refine (eq_trans (proj2 (parse_channel_post_link_int urlparse_plain Py.int
      "https://t.me/chan/12a" "chan" "12a" [] _ _)) _).
    + apply (bool_decide_unpack _); by vm_compute.
    + reflexivity.
    + reflexivity.
Defined.

(** ** Byte sizes *)

Lemma two_digits_length k : 0 <= k < 100 -> String.length (two_digits k) = 2%nat.
Proof.
  intros Hk. rewrite <- (Z2Nat.id k) by lia.
  assert (Z.to_nat k < 100)%nat as Hlt by lia.
  revert Hlt. generalize (Z.to_nat k) as n. clear. intros n Hlt.
  do 100 (destruct n as [|n]; [reflexivity|]). lia.
Qed.

Lemma two_digits_chars k :
  0 <= k < 100 ->
  two_digits k = String (digit_char (k / 10)) (String (digit_char (k mod 10)) "").
Proof.
  intros Hk. rewrite <- (Z2Nat.id k) by lia.
  assert (Z.to_nat k < 100)%nat as Hlt by lia.
  revert Hlt. generalize (Z.to_nat k) as n. clear. intros n Hlt.
  do 100 (destruct n as [|n]; [reflexivity|]). lia.
Qed.

Lemma round_half_even_nearest n d :
  0 < d ->
  let h := round_half_even n d in
  2 * Z.abs (n - h * d) <= d /\
  (2 * Z.abs (n - h * d) = d -> Z.even h = true).
Proof.
  intros Hd h. subst h. unfold round_half_even.
  pose proof (Z.div_mod n d ltac:(lia)) as Hn.
  pose proof (Z.mod_pos_bound n d Hd) as Hr.
  destruct (Z.ltb_spec (2 * (n mod d)) d) as [Hlt|Hge]; [split; lia|].
  destruct (Z.ltb_spec d (2 * (n mod d))) as [Hgt|Hle]; [split; lia|].
  destruct (Z.even (n / d)) eqn:He; [split; [lia|done]|].
  split; [lia|]. intros _.
  by rewrite Z.add_1_r, Z.even_succ, <- Z.negb_even, He.
Qed.

Lemma append_assoc (s t u : string) : (s +:+ t) +:+ u = s +:+ t +:+ u.
Proof.
  induction s as [|c s IH]; [done|].
  change (String c ((s +:+ t) +:+ u) = String c (s +:+ t +:+ u)). by f_equal.
Qed.

Lemma format_bytes_unit n :
  format_bytes n =
    fmt_2f n (1024 ^ Z.of_nat (unit_index n)) +:+ nth (unit_index n) unit_names "".
Proof.
  unfold format_bytes, unit_index. cbn [format_bytes_loop].
  change (1024 * (1024 * (1024 * (1024 * 1)))) with (1024 ^ 4).
  change (1024 * (1024 * (1024 * 1))) with (1024 ^ 3).
  change (1024 * (1024 * 1)) with (1024 ^ 2).
  change (1024 * 1) with 1024.
  repeat case_match; reflexivity.
Qed.

Lemma fmt_2f_digits num den :
  0 <= num -> 0 < den ->
  exists h,
    nearest_hundredths num den h /\
    fmt_2f num den =
      Py.str (h / 100) +:+ "."
      +:+ String (digit_char (h mod 100 / 10))
            (String (digit_char (h mod 100 mod 10)) "").
Proof.
  intros Hnum Hden. exists (round_half_even (100 * num) den).
  split; [by apply round_half_even_nearest|].
  unfold fmt_2f.
  assert ((num <? 0) = false) as -> by (apply Z.ltb_ge; lia).
  rewrite Z.abs_eq by lia.
  rewrite two_digits_chars by (apply Z.mod_pos_bound; lia).
  reflexivity.
Qed.

(** C5.  [format_bytes] gives [1023.00B], [1.00KB] and [1.00MB] at 1023,
    1024 and 1048576.  In general a count below [2^53] is divided by the
    power of 1024 of its unit among B, KB, MB, GB, TB, and printed with
    two decimals: the whole part, a point, the two digits of the
    hundredths, for the number of hundredths nearest to the quotient, and
    the unit. *)
Theorem format_bytes_units :
  format_bytes 1023 = "1023.00B" /\
  format_bytes 1024 = "1.00KB" /\
  format_bytes 1048576 = "1.00MB" /\
  (forall n : Z,
     0 <= n < 2 ^ 53 ->
     exists h,
       nearest_hundredths n (1024 ^ Z.of_nat (unit_index n)) h /\
       format_bytes n =
         Py.str (h / 100) +:+ "."
         +:+ String (digit_char (h mod 100 / 10))
               (String (digit_char (h mod 100 mod 10))
                  (nth (unit_index n) unit_names ""))).
Proof.
  split; [reflexivity|]. split; [reflexivity|]. split; [reflexivity|].
  intros n [Hn _].
  destruct (fmt_2f_digits n (1024 ^ Z.of_nat (unit_index n)) Hn ltac:(lia))
    as (h & Hh & Hfmt).
  exists h. split; [exact Hh|].
  rewrite format_bytes_unit, Hfmt, !append_assoc. reflexivity.
Qed.

(** Counts that are not whole numbers of their unit. *)
Example format_bytes_decimals :
  format_bytes 1536 = "1.50KB" /\ format_bytes 1234567 = "1.18MB" /\
  format_bytes 1000 = "1000.00B" /\ format_bytes 5368709 = "5.12MB" /\
  format_bytes 1288490189 = "1.20GB" /\ format_bytes 9007199254740991 = "8192.00TB".
Proof. repeat split; reflexivity. Qed.

(** ** Bot flow: the next-page button *)

Lemma most_recent_head l : head (sort_by_id_desc l) = most_recent l.
Proof.
  induction l as [|m l IH]; [done|].
  simpl. rewrite <- IH. unfold sort_by_id_desc.
  destruct (foldr insert_desc [] l) as [|x l']; simpl; [done|].
  by destruct (id x <=? id m).
Qed.

Lemma most_recent_None l : most_recent l = None <-> l = [].
Proof.
  split; [|by intros ->]. destruct l; simpl; [done|]. repeat case_match; done.
Qed.

Lemma most_recent_max l m :
  most_recent l = Some m -> m ∈ l /\ forall x, x ∈ l -> id x <= id m.
Proof.
  revert m. induction l as [|a l IH]; intros m; simpl; [done|].
  destruct (most_recent l) as [x|] eqn:E.
  - destruct (IH x eq_refl) as [Hin Hmax].
    destruct (id x <=? id a) eqn:Hle; intros [= <-].
    + apply Z.leb_le in Hle. split; [left|].
      intros y [->|Hy]%elem_of_cons; [lia|]. specialize (Hmax y Hy). lia.
    + apply Z.leb_gt in Hle. split; [by right|].
      intros y [->|Hy]%elem_of_cons; [lia|]. by apply Hmax.
  - intros [= <-]. split; [left|].
    apply most_recent_None in E as ->.
    by intros y ->%list_elem_of_singleton.
Qed.

Lemma scan_rows_concat n rows :
  scan_rows n rows = foldl (scan_button n) (inr (None, None)) (concat rows).
Proof.
  unfold scan_rows.
  generalize (@inr Raised _ (@None Button, @None Button)).
  induction rows as [|row rows IH]; intros acc; simpl; [done|].
  by rewrite foldl_app, IH.
Qed.

Lemma scan_button_raised n e btns : foldl (scan_button n) (inl e) btns = inl e.
Proof. induction btns as [|b btns IH]; [done|]. exact IH. Qed.

Lemma last_cons_match {A} (x : A) l :
  last (x :: l) = match last l with Some y => Some y | None => Some x end.
Proof. destruct l; [done|]. rewrite last_cons_cons. by destruct (last (_ :: _)) eqn:E; [|apply last_None in E]. Qed.

Lemma scan_button_cases n acc b :
  scan_button n (inr acc) b =
    if undecodable b then inl UnicodeDecodeError
    else if qualifying b then
      if has_arrow b then inr (Some b, snd acc)
      else if Py.contains (text b) n then inr (fst acc, Some b) else inr acc
    else inr acc.
Proof.
  unfold scan_button, undecodable, qualifying, has_callback, has_arrow, decode.
  destruct (data b) as [d|]; [|done].
  destruct (Py.truthy d); [|done].
  destruct (Py.utf8_valid d); [|done]. cbn [negb andb].
  destruct (String.eqb_spec d "page_info") as [->|Hd].
  - by rewrite bool_decide_eq_true_2.
  - rewrite bool_decide_eq_false_2 by (intros [=]; done). done.
Qed.

Lemma scan_buttons_spec n btns acc :
  foldl (scan_button n) (inr acc) btns =
  if existsb undecodable btns then inl UnicodeDecodeError
  else
    inr (match last (List.filter has_arrow (List.filter qualifying btns)) with
         | Some b => Some b
         | None => fst acc
         end,
         match last (List.filter (fun b => negb (has_arrow b) && Py.contains (text b) n)
                       (List.filter qualifying btns)) with
         | Some b => Some b
         | None => snd acc
         end).
Proof.
  revert acc. induction btns as [|b btns IH]; intros [a p]; [done|].
  cbn [foldl List.filter existsb]. rewrite scan_button_cases.
  destruct (undecodable b); cbn [orb]; [apply scan_button_raised|].
  destruct (qualifying b); [|by rewrite IH].
  cbn [List.filter].
  destruct (has_arrow b); cbn [negb andb].
  - rewrite IH. destruct (existsb undecodable btns); [done|]. cbn [fst snd].
    rewrite last_cons_match. by destruct (last (List.filter has_arrow _)).
  - destruct (Py.contains (text b) n); rewrite IH; [|done].
    destruct (existsb undecodable btns); [done|]. cbn [fst snd].
    rewrite last_cons_match.
    by destruct (last (List.filter (fun _ => negb _ && _) _)).
Qed.

Lemma filter_no_arrow n (q : list Button) :
  List.filter has_arrow q = [] ->
  List.filter (fun b => negb (has_arrow b) && Py.contains (text b) n) q
  = List.filter (fun b => Py.contains (text b) n) q.
Proof.
  induction q as [|b q IH]; simpl; [done|].
  destruct (has_arrow b); simpl; [done|]. intros H. by rewrite (IH H).
Qed.

Lemma find_next_page_button_choose messages current_page :
  find_next_page_button messages current_page =
    match most_recent (candidates messages) with
    | None => inr None
    | Some latest_msg =>
        if existsb undecodable (concat (buttons latest_msg)) then
          inl UnicodeDecodeError
        else
          match choose_button (concat (buttons latest_msg)) current_page with
          | Some btn => inr (Some (latest_msg, btn))
          | None => inr None
          end
    end.
Proof.
  unfold find_next_page_button. fold (candidates messages).
  rewrite <- most_recent_head.
  destruct (sort_by_id_desc (candidates messages)) as [|latest l]; [done|].
  change (head (latest :: l)) with (Some latest).
  rewrite scan_rows_concat, scan_buttons_spec.
  destruct (existsb undecodable _); [done|].
  unfold choose_button. simpl fst. simpl snd.
  destruct (last (List.filter has_arrow _)) as [b|] eqn:E; [done|].
  apply last_None in E. rewrite (filter_no_arrow _ _ E).
  unfold has_page_number. by destruct (last _).
Qed.

Lemma most_recent_candidate messages latest_msg :
  most_recent (candidates messages) = Some latest_msg ->
  latest_msg ∈ messages /\ out latest_msg = false /\
  buttons latest_msg <> [] /\
  (forall m, m ∈ messages -> out m = false -> buttons m <> [] ->
     id m <= id latest_msg).
Proof.
  intros [Hin Hmax]%most_recent_max.
  unfold candidates in *.
  apply list_elem_of_In, filter_In in Hin as [Hin [Ho Hb]%andb_true_iff].
  apply list_elem_of_In in Hin. apply negb_true_iff in Ho.
  repeat split; try done.
  - unfold has_buttons in Hb. by destruct (buttons latest_msg).
  - intros m Hm Hom Hbm. apply Hmax.
    apply list_elem_of_In, filter_In. split; [by apply list_elem_of_In|].
    rewrite Hom. unfold has_buttons. by destruct (buttons m).
Qed.



Example find_next_page_button_sample :
  find_next_page_button keyboard_messages 1
  = inr (Some ({| id := 32; out := false; photo := false; video := false;
             document := None;
             buttons := [[ {| text := "1/3"; data := Some "page_info" |};
                           {| text := "2"; data := Some "page_2" |};
                           {| text := "3"; data := Some "page_3" |} ];
                         [ {| text := "▶️ site"; data := None |} ]] |},
          {| text := "2"; data := Some "page_2" |})) /\
  find_next_page_button keyboard_messages 3 = inr None.
Proof. split; reflexivity. Qed.

(** ** Traces of the download loops *)

Lemma with_outcomes_cons {A} oracle t (x : A) items :
  with_outcomes oracle t (x :: items)
  = (x, oracle t) :: with_outcomes oracle (S t) items.
Proof. reflexivity. Qed.

Lemma transfer_and_rename_run oracle msg dir idx ext s :
  transfer_and_rename oracle msg dir idx ext s =
  (succeeded (oracle (transfers s)),
   {| transfers := S (transfers s);
      events := events s ++
        attempt_events (oracle (transfers s)) (id msg) dir (temp_filename idx ext) |}).
Proof.
  unfold transfer_and_rename, bind, next_outcome, emit, ret.
  destruct (oracle (transfers s)); simpl; by rewrite <- ?app_assoc.
Qed.

Lemma download_loop_run oracle base_dir items downloaded s :
  all_media items ->
  download_loop oracle base_dir items downloaded s =
  (downloaded + Z.of_nat (length (successes (with_outcomes oracle (transfers s) items))),
   {| transfers := transfers s + length items;
      events := events s ++
        batch_events false base_dir (with_outcomes oracle (transfers s) items) |}).
Proof.
  intros Hall. revert downloaded s.
  induction Hall as [|[idx m] items Hm _ IH]; intros downloaded s.
  - destruct s. simpl. unfold ret, batch_events. simpl.
    rewrite app_nil_r. do 3 f_equal; lia.
  - simpl in Hm. apply has_media_classify in Hm as [[kind ext] Hc].
    rewrite with_outcomes_cons. unfold batch_events, successes.
    cbn [download_loop fmap list_fmap concat List.filter snd fst length].
    unfold item_events at 1. simpl. rewrite Hc.
    unfold bind at 1. rewrite transfer_and_rename_run.
    destruct (succeeded (oracle (transfers s))) eqn:Hs.
    + rewrite IH. cbn [transfers events length].
      rewrite <- ?app_assoc, ?app_nil_r. unfold successes.
      f_equal; [lia|]. f_equal. lia.
    + unfold bind, emit. rewrite IH. cbn [transfers events].
      rewrite <- ?app_assoc. unfold successes. cbn [app].
      f_equal. f_equal. lia.
Qed.

Lemma download_media_from_message_run oracle m base_dir idx s :
  has_media m = true ->
  download_media_from_message oracle m base_dir idx s =
  (succeeded (oracle (transfers s)),
   {| transfers := S (transfers s);
      events := events s ++ item_events true (oracle (transfers s)) base_dir idx m |}).
Proof.
  intros [[kind ext] Hc]%has_media_classify.
  unfold download_media_from_message, item_events. rewrite Hc.
  unfold bind, emit. rewrite transfer_and_rename_run. cbn [transfers events].
  destruct (succeeded (oracle (transfers s))); unfold bind, emit, ret; simpl;
    by rewrite <- ?app_assoc, ?app_nil_r.
Qed.

Lemma download_each_run oracle out_dir items count s :
  all_media items ->
  download_each oracle out_dir items count s =
  (count + Z.of_nat (length (successes (with_outcomes oracle (transfers s) items))),
   {| transfers := transfers s + length items;
      events := events s ++
        batch_events true out_dir (with_outcomes oracle (transfers s) items) |}).
Proof.
  intros Hall. revert count s.
  induction Hall as [|[idx m] items Hm _ IH]; intros count s.
  - destruct s. simpl. unfold ret, batch_events. simpl.
    rewrite app_nil_r. do 3 f_equal; lia.
  - simpl in Hm. rewrite with_outcomes_cons. unfold batch_events, successes.
    cbn [download_each fmap list_fmap concat List.filter snd fst length].
    unfold bind at 1. rewrite (download_media_from_message_run _ _ _ _ _ Hm).
    rewrite IH. cbn [transfers events]. rewrite <- app_assoc.
    unfold successes, batch_events.
    destruct (succeeded (oracle (transfers s))); cbn [length];
      f_equal; try lia; f_equal; lia.
Qed.

Section BatchTrace.

Variables (lazy_dir : bool) (base_dir : Path).

Implicit Type results : list ((Z * Message) * Outcome).

Lemma batch_events_cons r results :
  batch_events lazy_dir base_dir (r :: results)
  = (item_events lazy_dir r.2 base_dir r.1.1 r.1.2
     ++ batch_events lazy_dir base_dir results)%list.
Proof. reflexivity. Qed.

Lemma item_events_projections o idx m :
  has_media m = true ->
  attempted (item_events lazy_dir o base_dir idx m) = [id m] /\
  saved (item_events lazy_dir o base_dir idx m)
    = (if succeeded o then [id m] else []) /\
  failures_logged (item_events lazy_dir o base_dir idx m)
    = (if succeeded o then [] else [id m]) /\
  folders_made (item_events lazy_dir o base_dir idx m)
    = (if lazy_dir then save_dir base_dir <$> option_list (kind_of m) else []).
Proof.
  intros [[kind ext] Hc]%has_media_classify.
  unfold item_events, kind_of. rewrite Hc. by destruct lazy_dir, o.
Qed.

Lemma attempted_batch results :
  all_media results.*1 ->
  attempted (batch_events lazy_dir base_dir results) = result_id <$> results.
Proof.
  unfold all_media.
  induction results as [|[[idx m] o] results IH]; [done|].
  rewrite fmap_cons, Forall_cons, batch_events_cons. intros [Hm Hall].
  destruct (item_events_projections o idx m Hm) as (Ha & _).
  unfold attempted in *. rewrite omap_app, (IH Hall). simpl in *. by rewrite Ha.
Qed.

Lemma saved_batch results :
  all_media results.*1 ->
  saved (batch_events lazy_dir base_dir results) = result_id <$> successes results.
Proof.
  unfold all_media.
  induction results as [|[[idx m] o] results IH]; [done|].
  rewrite fmap_cons, Forall_cons, batch_events_cons. intros [Hm Hall].
  destruct (item_events_projections o idx m Hm) as (_ & Ha & _).
  unfold saved, successes in *. rewrite omap_app, (IH Hall). simpl in *.
  rewrite Ha. by destruct (succeeded o).
Qed.

Lemma failures_logged_batch results :
  all_media results.*1 ->
  failures_logged (batch_events lazy_dir base_dir results)
  = result_id <$> failures results.
Proof.
  unfold all_media.
  induction results as [|[[idx m] o] results IH]; [done|].
  rewrite fmap_cons, Forall_cons, batch_events_cons. intros [Hm Hall].
  destruct (item_events_projections o idx m Hm) as (_ & _ & Ha & _).
  unfold failures_logged, failures in *. rewrite omap_app, (IH Hall). simpl in *.
  rewrite Ha. by destruct (succeeded o).
Qed.

Lemma folders_made_batch results :
  all_media results.*1 ->
  folders_made (batch_events lazy_dir base_dir results)
  = if lazy_dir
    then results ≫= (fun r => save_dir base_dir <$> option_list (kind_of r.1.2))
    else [].
Proof.
  unfold all_media.
  induction results as [|[[idx m] o] results IH]; [by destruct lazy_dir|].
  rewrite fmap_cons, Forall_cons, batch_events_cons. intros [Hm Hall].
  destruct (item_events_projections o idx m Hm) as (_ & _ & _ & Ha).
  unfold folders_made in *. rewrite omap_app, (IH Hall). simpl in *.
  rewrite Ha. by destruct lazy_dir.
Qed.

End BatchTrace.

Lemma with_outcomes_fst {A} oracle t (items : list A) :
  (with_outcomes oracle t items).*1 = items.
Proof.
  unfold with_outcomes. apply fst_zip. by rewrite length_fmap, length_seq.
Qed.

Lemma with_outcomes_length {A} oracle t (items : list A) :
  length (with_outcomes oracle t items) = length items.
Proof. by rewrite <- (with_outcomes_fst oracle t items) at 2; rewrite length_fmap. Qed.

Lemma successes_failures_length {A} (results : list (A * Outcome)) :
  (length (successes results) + length (failures results) = length results)%nat.
Proof.
  unfold successes, failures. induction results as [|[a o] results IH]; [done|].
  simpl. destruct (succeeded o); simpl; lia.
Qed.

Lemma all_media_enumerate i l :
  Forall (fun m => has_media m = true) l -> all_media (enumerate i l).
Proof.
  intros H. revert i. induction H as [|m l Hm _ IH]; intros i; simpl.
  - constructor.
  - constructor; [done | apply IH].
Qed.

Lemma filter_has_media_Forall l :
  Forall (fun m => has_media m = true) (List.filter has_media l).
Proof. apply Forall_forall. intros m Hm%list_elem_of_In%filter_In. tauto. Qed.

Lemma inbound_media_Forall l :
  Forall (fun m => out m = false /\ has_media m = true) (inbound_media l).
Proof.
  apply Forall_forall. intros m Hm%list_elem_of_In%filter_In.
  destruct Hm as [_ [Ho Hm]%andb_true_iff]. by apply negb_true_iff in Ho.
Qed.

Lemma sort_by_id_Forall (P : Message -> Prop) l :
  Forall P l -> Forall P (sort_by_id l).
Proof. by rewrite sort_by_id_perm. Qed.

Lemma comments_worklist_items comments start_from items :
  comments_worklist comments start_from = Some items ->
  items = enumerate start_from
            (drop (Z.to_nat (start_from - 1))
               (sort_by_id (List.filter has_media comments))).
Proof.
  unfold comments_worklist.
  destruct (List.filter has_media comments) as [|c l] eqn:E; [done|].
  destruct (1 <? start_from) eqn:Hk.
  - case_match; [done|]. by intros [= <-].
  - apply Z.ltb_ge in Hk. intros [= <-].
    by replace (Z.to_nat (start_from - 1)) with 0%nat by lia.
Qed.

Lemma comments_worklist_media comments start_from items :
  comments_worklist comments start_from = Some items -> all_media items.
Proof.
  intros ->%comments_worklist_items.
  apply all_media_enumerate, Forall_drop, sort_by_id_Forall, filter_has_media_Forall.
Qed.

Lemma topic_worklist_media messages items :
  topic_worklist messages = Some items -> all_media items.
Proof.
  unfold topic_worklist.
  destruct (List.filter has_media messages) as [|c l] eqn:E; [done|].
  intros [= <-]. apply all_media_enumerate, (sort_by_id_Forall _ (c :: l)).
  rewrite <- E. apply filter_has_media_Forall.
Qed.

Lemma bot_worklist_media messages start_index :
  all_media (bot_worklist messages start_index).
Proof.
  apply all_media_enumerate, sort_by_id_Forall.
  eapply Forall_impl; [apply inbound_media_Forall|]. by intros ? [? ?].
Qed.

Lemma download_media_messages_run oracle messages base_dir start_index s :
  let results :=
    with_outcomes oracle (transfers s) (bot_worklist messages start_index) in
  download_media_messages oracle messages base_dir start_index s =
  (Z.of_nat (length (successes results)),
   {| transfers := transfers s + length results;
      events := events s ++
        (match inbound_media messages with
         | [] => []
         | _ :: _ => [Mkdir (child base_dir images_label);
                      Mkdir (child base_dir videos_label)]
         end ++ batch_events false base_dir results) |}).
Proof.
  intros results. subst results. unfold download_media_messages, bot_worklist.
  destruct (inbound_media messages) as [|m l] eqn:E.
  - destruct s. unfold ret. simpl. by rewrite app_nil_r, Nat.add_0_r.
  - unfold bind, emit. rewrite download_loop_run.
    + cbn [transfers events]. rewrite with_outcomes_length, <- !app_assoc.
      by rewrite Z.add_0_l.
    + pose proof (bot_worklist_media messages start_index) as Hall.
      unfold bot_worklist in Hall. by rewrite E in Hall.
Qed.

(** ** Per-item failures *)

(** C8.  In a batch, every item is tried, whatever happened to the items
    before it; an item whose transfer or rename fails is logged with its
    message id; the count returned is the number of the items that went
    through.  This holds for the bot flow ([download_media_messages]) and
    for the loop of the comment and topic flows over
    [download_media_from_message]. *)
Theorem per_item_failure_isolated (oracle : nat -> Outcome) (base_dir : Path)
    (s : Sys) :
  (forall messages start_index,
     let results :=
       with_outcomes oracle (transfers s) (bot_worklist messages start_index) in
     exists trace,
       download_media_messages oracle messages base_dir start_index s
       = (Z.of_nat (length (successes results)),
          {| transfers := transfers s + length results;
             events := events s ++ trace |}) /\
       attempted trace = result_id <$> results /\
       failures_logged trace = result_id <$> failures results /\
       saved trace = result_id <$> successes results /\
       (length (successes results) + length (failures results)
        = length (inbound_media messages))%nat) /\
  (forall items count,
     all_media items ->
     let results := with_outcomes oracle (transfers s) items in
     exists trace,
       download_each oracle base_dir items count s
       = (count + Z.of_nat (length (successes results)),
          {| transfers := transfers s + length items;
             events := events s ++ trace |}) /\
       attempted trace = result_id <$> results /\
       failures_logged trace = result_id <$> failures results /\
       saved trace = result_id <$> successes results /\
       (length (successes results) + length (failures results)
        = length items)%nat).
Proof.
  split.
  - intros messages start_index results.
    pose proof (bot_worklist_media messages start_index) as Hall.
    rewrite <- (with_outcomes_fst oracle (transfers s)) in Hall. fold results in Hall.
    eexists. split; [apply download_media_messages_run|].
    fold results. unfold attempted, failures_logged, saved.
    rewrite !omap_app.
    fold (attempted (batch_events false base_dir results)).
    fold (failures_logged (batch_events false base_dir results)).
    fold (saved (batch_events false base_dir results)).
    rewrite attempted_batch, failures_logged_batch, saved_batch by done.
    rewrite successes_failures_length. unfold results.
    rewrite with_outcomes_length. unfold bot_worklist.
    rewrite <- (length_fmap snd), enumerate_snd, sort_by_id_length.
    by destruct (inbound_media messages).
  - intros items count Hall results.
    eexists. split; [by apply download_each_run|].
    fold results. rewrite <- (with_outcomes_fst oracle (transfers s)) in Hall.
    fold results in Hall.
    rewrite attempted_batch, failures_logged_batch, saved_batch by done.
    rewrite successes_failures_length. unfold results.
    by rewrite with_outcomes_length.
Qed.

Lemma per_item_failure_isolated_witness :
  exists trace,
    download_media_messages flaky
      [photo_message 13; photo_message 11; photo_message 14; photo_message 12]
      ["out"] 0 start
    = (2, {| transfers := 4; events := trace |}) /\
    attempted trace = [11; 12; 13; 14] /\
    failures_logged trace = [12; 13] /\
    saved trace = [11; 14].
Proof.
  destruct (per_item_failure_isolated flaky ["out"] start) as [Hbot _].
  destruct (Hbot [photo_message 13; photo_message 11; photo_message 14;
                  photo_message 12] 0)
    as (trace & Hrun & Ha & Hf & Hs & _).
  exists trace. split; [|split; [|split]].
  - exact Hrun.
  - exact Ha.
  - exact Hf.
  - exact Hs.
Defined.

(** ** Comment flow: resuming from an offset *)

Lemma transfer_names_batch lazy_dir base_dir
    (results : list ((Z * Message) * Outcome)) :
  transfer_names (batch_events lazy_dir base_dir results) = omap item_name results.*1.
Proof.
  induction results as [|[[idx m] o] results IH]; [done|].
  rewrite batch_events_cons. unfold transfer_names in *.
  rewrite omap_app, IH, fmap_cons. cbn [omap list_omap].
  unfold item_name at 2, item_events. simpl.
  destruct (classify m) as [[kind ext]|]; simpl; [|done].
  by destruct lazy_dir, o.
Qed.

Lemma successes_all {A} oracle t (items : list A) :
  all_completed oracle ->
  length (successes (with_outcomes oracle t items)) = length items.
Proof.
  intros Hall. unfold successes, with_outcomes. revert t.
  induction items as [|x items IH]; intros t; [done|].
  simpl. rewrite Hall. simpl. by rewrite IH.
Qed.

(** C7.  The comments with media, sorted by ascending id, lose their
    first [k - 1] items when [start_from = k]; the others are downloaded
    in order under the indices [k], [k + 1], ...  With ten media comments
    and [start_from = 5], six items are downloaded, under the indices 5
    to 10. *)
Theorem comments_start_from (comments : list Message) (k : Z) :
  let media_comments := sort_by_id (List.filter has_media comments) in
  let kept := drop (Z.to_nat (k - 1)) media_comments in
  StronglySorted id_le media_comments /\
  media_comments ≡ₚ List.filter has_media comments /\
  match comments_worklist comments k with
  | Some items =>
      items.*2 = kept /\ items.*1 = seqZ k (Z.of_nat (length kept)) /\
      forall oracle out_dir s,
        exists trace,
          download_comments_media oracle comments out_dir k s
          = (Some (Z.of_nat
                     (length (successes (with_outcomes oracle (transfers s) items)))),
             {| transfers := transfers s + length items;
                events := events s ++ trace |}) /\
          transfer_names trace = omap item_name items /\
          length (transfer_names trace) = length kept
  | None =>
      kept = [] /\
      forall oracle out_dir s,
        download_comments_media oracle comments out_dir k s = (None, s)
  end /\
  (length (List.filter has_media comments) = 10%nat -> k = 5 ->
     exists items,
       comments_worklist comments k = Some items /\
       items.*1 = [5; 6; 7; 8; 9; 10] /\
       items.*2 = drop 4 media_comments /\
       forall oracle out_dir s,
         all_completed oracle ->
         (download_comments_media oracle comments out_dir k s).1 = Some 6).
Proof.
  intros media_comments kept.
  assert (Hcases :
    match comments_worklist comments k with
    | Some items => items = enumerate k kept
    | None => kept = []
    end).
  { destruct (comments_worklist comments k) as [items|] eqn:E.
    - by apply comments_worklist_items.
    - unfold comments_worklist in E. subst kept media_comments.
      destruct (List.filter has_media comments) as [|c l] eqn:El; [by destruct (Z.to_nat _)|].
      destruct (1 <? k) eqn:Hk; [|done].
      case_match eqn:Hlen; [|done].
      apply Z.ltb_lt in Hk, Hlen. apply drop_ge. lia. }
  split; [apply sort_by_id_sorted|]. split; [apply sort_by_id_perm|]. split.
  - destruct (comments_worklist comments k) as [items|] eqn:E.
    + pose proof (comments_worklist_media _ _ _ E) as Hmedia. subst items.
      rewrite enumerate_snd, enumerate_fst. split; [done|]. split; [done|].
      intros oracle out_dir s. unfold download_comments_media. rewrite E.
      unfold bind, ret. rewrite (download_each_run _ _ _ _ _ Hmedia).
      eexists. split; [by rewrite Z.add_0_l|].
      rewrite transfer_names_batch, with_outcomes_fst. split; [done|].
      rewrite <- (enumerate_snd k kept) at 2.
      rewrite length_fmap.
      clear E. induction Hmedia as [|[i m] l Hm _ IH]; [done|].
      cbn [omap list_omap]. unfold item_name at 1.
      apply has_media_classify in Hm as [[kind ext] ->]. simpl. by rewrite IH.
    + split; [done|]. intros oracle out_dir s.
      unfold download_comments_media. by rewrite E.
  - intros Hten ->.
    assert (length media_comments = 10%nat) as Hlen
      by (unfold media_comments; by rewrite sort_by_id_length).
    destruct (comments_worklist comments 5) as [items|] eqn:E.
    + exists items. split; [done|]. subst items.
      rewrite enumerate_fst, enumerate_snd. subst kept.
      change (Z.to_nat (5 - 1)) with 4%nat.
      rewrite length_drop, Hlen. split; [reflexivity|]. split; [done|].
      intros oracle out_dir s Hall.
      pose proof (comments_worklist_media _ _ _ E) as Hmedia.
      unfold download_comments_media. rewrite E. unfold bind, ret.
      rewrite (download_each_run _ _ _ _ _ Hmedia). simpl.
      rewrite successes_all by done.
      rewrite <- (length_fmap snd), enumerate_snd, length_drop, Hlen. done.
    + subst kept. apply (f_equal length) in Hcases.
      rewrite length_drop, Hlen in Hcases. done.
Qed.

Lemma comments_start_from_witness :
  exists items,
    comments_worklist ten_media_comments 5 = Some items /\
    items.*1 = [5; 6; 7; 8; 9; 10] /\
    (id <$> items.*2) = [24; 25; 29; 30; 35; 40] /\
    (download_comments_media (fun _ => Completed 0) ten_media_comments ["out"] 5
       start).1 = Some 6.
Proof.
  destruct (comments_start_from ten_media_comments 5) as (_ & _ & _ & H).
  destruct (H eq_refl eq_refl) as (items & Hw & Hidx & Hmsgs & Hrun).
  exists items. split; [exact Hw|]. split; [exact Hidx|]. split.
  - rewrite Hmsgs. reflexivity.
  - apply Hrun. intros t. reflexivity.
Defined.

Example comments_start_from_names :
  transfer_names
    (events (download_comments_media (fun _ => Completed 0) ten_media_comments
               ["out"] 5 start).2)
  = [(24, "005.jpg"); (25, "006.jpg"); (29, "007.jpg"); (30, "008.jpg");
     (35, "009.jpg"); (40, "010.jpg")].
Proof. reflexivity. Qed.

(** ** Destination folders *)

(** C9, as stated, fails in the bot flow: for a page with one photo and
    nothing else, the video subfolder is made although no item is written
    into it. *)
Lemma bot_flow_makes_both_folders :
  let run := download_media_messages (fun _ => Completed 1700000000000)
               [photo_message 1] ["out"] 0 start in
  classify (photo_message 1) = Some (Image, "jpg") /\
  Mkdir ["out"; videos_label] ∈ events run.2 /\
  events run.2 =
    [Mkdir ["out"; images_label]; Mkdir ["out"; videos_label];
     Transfer 1 ["out"; images_label] "001.jpg" true;
     Rename 1 ["out"; images_label] "001.jpg" "1700000000000_001.jpg" true].
Proof.
  split; [reflexivity|]. split; [|reflexivity].
  apply (bool_decide_unpack _). by vm_compute.
Qed.

Lemma lazy_blocks base_dir (results : list ((Z * Message) * Outcome)) :
  all_media results.*1 ->
  Forall2 (lazy_block base_dir) results.*1
    ((fun r => item_events true r.2 base_dir r.1.1 r.1.2) <$> results).
Proof.
  unfold all_media.
  induction results as [|[[idx m] o] results IH]; [constructor|].
  rewrite !fmap_cons, Forall_cons. intros [Hm Hall].
  constructor; [|by apply IH].
  simpl in *. apply has_media_classify in Hm as [[kind ext] Hc].
  unfold lazy_block, item_events. simpl. rewrite Hc.
  exists kind, ext. destruct o; eexists _, _; (split; [done|]); by split.
Qed.

Lemma folders_after_made fs evs :
  folders_after fs evs = list_to_set (folders_made evs) ∪ fs.
Proof.
  revert fs. induction evs as [|e evs IH]; intros fs; simpl.
  - by rewrite (left_id_L ∅ (∪)).
  - rewrite IH. unfold folders_made, mkdir.
    destruct e; simpl; try done.
    by rewrite (assoc_L (∪)), (comm_L (∪) _ {[d]}).
Qed.

(** C9, amended.  In the comment and topic flows the folder of an item is
    made right before the transfer of that item and at no other time, so
    the image or video subfolder exists only if an item of that kind was
    about to be written; making a folder that exists changes nothing.  In
    the bot flow both subfolders are made, before any transfer, for every
    page that has at least one inbound message with media, whatever the
    kinds of its items, and nothing is made for a page without one. *)
Theorem folders_lazy_except_bot (oracle : nat -> Outcome) (base_dir : Path)
    (s : Sys) :
  (forall items count,
     all_media items ->
     exists blocks,
       events (download_each oracle base_dir items count s).2
       = (events s ++ concat blocks)%list /\
       Forall2 (lazy_block base_dir) items blocks /\
       folders_made (concat blocks)
       = items ≫= (fun im => save_dir base_dir <$> option_list (kind_of im.2))) /\
  (forall comments start_from items,
     comments_worklist comments start_from = Some items -> all_media items) /\
  (forall messages items,
     topic_worklist messages = Some items -> all_media items) /\
  (forall d fs evs,
     mkdir d (mkdir d fs) = mkdir d fs /\
     folders_after fs evs = list_to_set (folders_made evs) ∪ fs) /\
  (forall messages start_index,
     exists trace,
       events (download_media_messages oracle messages base_dir start_index s).2
       = (events s ++
          match inbound_media messages with
          | [] => []
          | _ :: _ =>
              Mkdir (child base_dir images_label)
              :: Mkdir (child base_dir videos_label) :: trace
          end)%list /\
       folders_made trace = []).
Proof.
  split; [|split; [|split; [|split]]].
  - intros items count Hall.
    rewrite (download_each_run _ _ _ _ _ Hall). cbn [snd events].
    set (results := with_outcomes oracle (transfers s) items).
    assert (results.*1 = items) as Hfst by apply with_outcomes_fst.
    exists ((fun r => item_events true r.2 base_dir r.1.1 r.1.2) <$> results).
    split; [done|]. split.
    + rewrite <- Hfst at 1. apply lazy_blocks. by rewrite Hfst.
    + fold (batch_events true base_dir results).
      rewrite folders_made_batch by (by rewrite Hfst).
      rewrite <- Hfst. clear. induction results as [|r results IH]; [done|].
      rewrite fmap_cons. cbn [mbind list_bind]. by rewrite IH.
  - apply comments_worklist_media.
  - apply topic_worklist_media.
  - intros d fs evs. split; [|apply folders_after_made].
    unfold mkdir. by rewrite (assoc_L (∪)), (idemp_L (∪)).
  - intros messages start_index.
    rewrite download_media_messages_run. cbn [snd events].
    set (results := with_outcomes _ _ _).
    exists (batch_events false base_dir results). split.
    + destruct (inbound_media messages) eqn:E; [|done].
      unfold results, bot_worklist. by rewrite E.
    + rewrite folders_made_batch; [done|].
      unfold results. rewrite with_outcomes_fst. apply bot_worklist_media.
Qed.

Lemma folders_lazy_except_bot_witness :
  exists blocks,
    events (download_each flaky ["out"]
              (enumerate 1 (sort_by_id mixed_comments)) 0 start).2
    = concat blocks /\
    Forall2 (lazy_block ["out"]) (enumerate 1 (sort_by_id mixed_comments)) blocks /\
    folders_made (concat blocks)
    = [["out"; images_label]; ["out"]; ["out"; images_label]].
Proof.
  destruct (folders_lazy_except_bot flaky ["out"] start) as (Hlazy & _).
  destruct (Hlazy (enumerate 1 (sort_by_id mixed_comments)) 0)
    as (blocks & Hrun & Hblocks & Hmade).
  - repeat constructor.
  - exists blocks. split; [exact Hrun|]. split; [exact Hblocks|]. exact Hmade.
Defined.

(** ** Outbound messages *)

Lemma inbound_media_inbound messages :
  inbound_media (List.filter inbound messages) = inbound_media messages.
Proof.
  unfold inbound_media, inbound. induction messages as [|m l IH]; [done|].
  simpl. destruct (out m) eqn:Ho; simpl; rewrite ?Ho; simpl; [done|].
  destruct (has_media m); by rewrite IH.
Qed.

Lemma candidates_inbound messages :
  candidates (List.filter inbound messages) = candidates messages.
Proof.
  unfold candidates, inbound. induction messages as [|m l IH]; [done|].
  simpl. destruct (out m) eqn:Ho; simpl; rewrite ?Ho; simpl; [done|].
  destruct (has_buttons m); by rewrite IH.
Qed.

Lemma download_comments_media_run oracle comments out_dir start_from s items :
  comments_worklist comments start_from = Some items ->
  download_comments_media oracle comments out_dir start_from s =
  (Some (Z.of_nat (length (successes (with_outcomes oracle (transfers s) items)))),
   {| transfers := transfers s + length items;
      events := events s ++
        batch_events true out_dir (with_outcomes oracle (transfers s) items) |}).
Proof.
  intros E. unfold download_comments_media. rewrite E. unfold bind, ret.
  rewrite (download_each_run _ _ _ _ _ (comments_worklist_media _ _ _ E)).
  by rewrite Z.add_0_l.
Qed.

Lemma download_topic_media_run oracle messages out_dir s items :
  topic_worklist messages = Some items ->
  download_topic_media oracle messages out_dir s =
  (Some (Z.of_nat (length (successes (with_outcomes oracle (transfers s) items)))),
   {| transfers := transfers s + length items;
      events := events s ++
        batch_events true out_dir (with_outcomes oracle (transfers s) items) |}).
Proof.
  intros E. unfold download_topic_media. rewrite E. unfold bind, ret.
  rewrite (download_each_run _ _ _ _ _ (topic_worklist_media _ _ E)).
  by rewrite Z.add_0_l.
Qed.

Lemma attempted_worklist lazy_dir base_dir oracle t items :
  all_media items ->
  attempted (batch_events lazy_dir base_dir (with_outcomes oracle t items))
  = id <$> items.*2.
Proof.
  intros Hall. rewrite attempted_batch by (by rewrite with_outcomes_fst).
  rewrite <- (with_outcomes_fst oracle t items) at 2.
  by rewrite <- !list_fmap_compose.
Qed.

Lemma elem_of_sorted_media m l :
  m ∈ l -> has_media m = true -> m ∈ sort_by_id (List.filter has_media l).
Proof.
  intros Hin Hm. rewrite sort_by_id_perm.
  apply list_elem_of_In, filter_In. split; [by apply list_elem_of_In | done].
Qed.

(** C10.  In the bot flow the messages sent by this client do not count:
    leaving them out of the input changes neither the downloads nor the
    button found, every message downloaded is inbound and so is the
    message of the button.  The comment and topic flows have no such
    filter: an outbound message with media is put on the list and its
    transfer is started. *)
Theorem outbound_only_skipped_by_bot (oracle : nat -> Outcome) (out_dir : Path)
    (s : Sys) :
  (forall messages start_index,
     download_media_messages oracle messages out_dir start_index s
     = download_media_messages oracle (List.filter inbound messages) out_dir
         start_index s /\
     Forall (fun m => out m = false) (bot_worklist messages start_index).*2 /\
     attempted (events (download_media_messages oracle messages out_dir
                          start_index s).2)
     = (attempted (events s) ++ (id <$> (bot_worklist messages start_index).*2))%list) /\
  (forall messages current_page,
     find_next_page_button messages current_page
     = find_next_page_button (List.filter inbound messages) current_page /\
     forall m btn,
       find_next_page_button messages current_page = inr (Some (m, btn)) ->
       out m = false) /\
  (forall comments start_from m,
     start_from <= 1 -> m ∈ comments -> out m = true -> has_media m = true ->
     exists items,
       comments_worklist comments start_from = Some items /\
       m ∈ items.*2 /\
       id m ∈ attempted (events (download_comments_media oracle comments out_dir
                                   start_from s).2)) /\
  (forall messages m,
     m ∈ messages -> out m = true -> has_media m = true ->
     exists items,
       topic_worklist messages = Some items /\
       m ∈ items.*2 /\
       id m ∈ attempted (events (download_topic_media oracle messages out_dir s).2)).
Proof.
  split; [|split; [|split]].
  - intros messages start_index. split; [|split].
    + unfold download_media_messages. by rewrite inbound_media_inbound.
    + unfold bot_worklist. rewrite enumerate_snd.
      apply sort_by_id_Forall.
      eapply Forall_impl; [apply inbound_media_Forall|]. by intros ? [? ?].
    + rewrite download_media_messages_run. cbn [snd events].
      unfold attempted. rewrite !omap_app.
      fold (attempted (batch_events false out_dir
              (with_outcomes oracle (transfers s) (bot_worklist messages start_index)))).
      rewrite attempted_worklist by apply bot_worklist_media.
      by destruct (inbound_media messages).
  - intros messages current_page. split.
    + by rewrite !find_next_page_button_choose, candidates_inbound.
    + intros m btn. rewrite find_next_page_button_choose.
      destruct (most_recent (candidates messages)) as [latest|] eqn:E; [|done].
      destruct (most_recent_candidate _ _ E) as (_ & Hout & _).
      case_match; [done|]. case_match; [|done]. by intros [= <- _].
  - intros comments start_from m Hk Hin Hout Hm.
    pose proof (elem_of_sorted_media m comments Hin Hm) as Hsorted.
    assert (comments_worklist comments start_from
            = Some (enumerate start_from
                      (sort_by_id (List.filter has_media comments)))) as E.
    { unfold comments_worklist.
      destruct (List.filter has_media comments) eqn:El.
      - by apply elem_of_nil in Hsorted.
      - assert ((1 <? start_from) = false) as -> by (apply Z.ltb_ge; lia). done. }
    eexists. split; [exact E|]. rewrite enumerate_snd. split; [done|].
    rewrite (download_comments_media_run _ _ _ _ _ _ E). cbn [snd events].
    unfold attempted. rewrite omap_app. apply elem_of_app. right.
    fold (attempted (batch_events true out_dir
            (with_outcomes oracle (transfers s)
               (enumerate start_from (sort_by_id (List.filter has_media comments)))))).
    rewrite attempted_worklist by (by eapply comments_worklist_media).
    rewrite enumerate_snd. by apply list_elem_of_fmap_2.
  - intros messages m Hin Hout Hm.
    pose proof (elem_of_sorted_media m messages Hin Hm) as Hsorted.
    assert (topic_worklist messages
            = Some (enumerate 1 (sort_by_id (List.filter has_media messages)))) as E.
    { unfold topic_worklist.
      destruct (List.filter has_media messages) eqn:El; [|done].
      by apply elem_of_nil in Hsorted. }
    eexists. split; [exact E|]. rewrite enumerate_snd. split; [done|].
    rewrite (download_topic_media_run _ _ _ _ _ E). cbn [snd events].
    unfold attempted. rewrite omap_app. apply elem_of_app. right.
    fold (attempted (batch_events true out_dir
            (with_outcomes oracle (transfers s)
               (enumerate 1 (sort_by_id (List.filter has_media messages)))))).
    rewrite attempted_worklist by (by eapply topic_worklist_media).
    rewrite enumerate_snd. by apply list_elem_of_fmap_2.
Qed.

Lemma outbound_only_skipped_by_bot_witness :
  (download_media_messages flaky [outbound_photo] ["out"] 0 start).2 = start /\
  exists items,
    topic_worklist [outbound_photo] = Some items /\
    outbound_photo ∈ items.*2 /\
    9 ∈ attempted (events (download_topic_media flaky [outbound_photo] ["out"]
                             start).2).
Proof.
  destruct (outbound_only_skipped_by_bot flaky ["out"] start)
    as (Hbot & _ & _ & Htopic).
  split.
  - destruct (Hbot [outbound_photo] 0) as [-> _]. reflexivity.
  - apply (Htopic [outbound_photo] outbound_photo).
    + apply list_elem_of_singleton. reflexivity.
    + reflexivity.
    + reflexivity.
Defined.

(** ** Bot flow: the pagination loop *)

(** One turn of the loop. *)
Lemma pagination_S fuel bot out_dir max_pages wm h s :
  pagination (S fuel) bot out_dir max_pages wm h s =
    if negb ((max_pages =? 0) || (current_page h <=? max_pages)) then
      (Some PageLimit, h, s)
    else
      let s1 := log (GetMessages (current_page h)) s in
      let new_messages := page_new bot wm h in
      match new_messages with
      | [] => (Some Stalled, h, s1)
      | _ :: _ =>
          let r := download_media_messages (bot_outcome bot) new_messages
                     out_dir (total_downloaded h) s1 in
          let seen := mark_media (downloaded_msg_ids h) new_messages in
          match find_next_page_button new_messages (current_page h) with
          | inl e =>
              (Some (Aborted e),
               {| total_downloaded := total_downloaded h + r.1;
                  current_page := current_page h;
                  downloaded_msg_ids := seen |}, r.2)
          | inr None =>
              (Some Done,
               {| total_downloaded := total_downloaded h + r.1;
                  current_page := current_page h;
                  downloaded_msg_ids := seen |}, r.2)
          | inr (Some (msg_with_btn, next_btn)) =>
              pagination fuel bot out_dir max_pages wm
                {| total_downloaded := total_downloaded h + r.1;
                   current_page := current_page h + 1;
                   downloaded_msg_ids := seen |}
                (log (Click (id msg_with_btn) (data next_btn)) r.2)
          end
      end.
Proof.
  cbn [pagination]. destruct (negb _); [done|].
  unfold bind at 1. unfold emit at 1. fold (log (GetMessages (current_page h)) s).
  fold (page_new bot wm h). cbv zeta.
  destruct (page_new bot wm h) as [|m l]; [done|].
  unfold bind at 1.
  destruct (download_media_messages _ _ _ _ _) as [downloaded s2]. simpl.
  destruct (find_next_page_button _ _) as [e|[[msg btn]|]]; done.
Qed.

Lemma elem_of_mark_media seen l i :
  i ∈ mark_media seen l <->
  i ∈ seen \/ exists m, m ∈ l /\ has_media m = true /\ id m = i.
Proof.
  unfold mark_media. revert seen. induction l as [|m l IH]; intros seen; simpl.
  - split; [by left|]. intros [H|(m & Hm & _)]; [done|]. by apply elem_of_nil in Hm.
  - rewrite IH. destruct (has_media m) eqn:Hm.
    + rewrite elem_of_union, elem_of_singleton. split.
      * intros [[->|H]|(x & Hx & Hxm & <-)]; [|by left|].
        -- right. exists m. split; [left|done].
        -- right. exists x. split; [by right|done].
      * intros [H|(x & [->|Hx]%elem_of_cons & Hxm & <-)].
        -- left. by right.
        -- left. by left.
        -- right. by exists x.
    + split.
      * intros [H|(x & Hx & Hxm & <-)]; [by left|].
        right. exists x. split; [by right|done].
      * intros [H|(x & [->|Hx]%elem_of_cons & Hxm & <-)]; [by left|congruence|].
        right. by exists x.
Qed.

Lemma elem_of_new_messages wm seen messages m :
  m ∈ new_messages_of wm seen messages <->
  m ∈ messages /\ wm < id m /\ id m ∉ seen.
Proof.
  unfold new_messages_of. rewrite list_elem_of_In, filter_In, <- list_elem_of_In.
  rewrite andb_true_iff, Z.ltb_lt, negb_true_iff, bool_decide_eq_false. tauto.
Qed.

Lemma filter_sublist {A} (f : A -> bool) l : List.filter f l `sublist_of` l.
Proof.
  induction l as [|x l IH]; simpl; [constructor|].
  destruct (f x); by constructor.
Qed.

Lemma NoDup_ids_filter (f : Message -> bool) l :
  NoDup (id <$> l) -> NoDup (id <$> List.filter f l).
Proof.
  intros H. eapply sublist_NoDup; [exact H|].
  apply fmap_sublist, filter_sublist.
Qed.

Lemma pages_fetched_batch lazy_dir base_dir
    (results : list ((Z * Message) * Outcome)) :
  pages_fetched (batch_events lazy_dir base_dir results) = [].
Proof.
  induction results as [|[[idx m] o] results IH]; [done|].
  rewrite batch_events_cons. unfold pages_fetched in *. rewrite omap_app, IH.
  unfold item_events. simpl. destruct (classify m) as [[kind ext]|]; [|done].
  by destruct lazy_dir, o.
Qed.

(** What one call of [download_media_messages] adds to the trace. *)
Lemma download_media_messages_trace oracle messages base_dir start_index s :
  let r := download_media_messages oracle messages base_dir start_index s in
  let results :=
    with_outcomes oracle (transfers s) (bot_worklist messages start_index) in
  attempted (events r.2)
    = (attempted (events s) ++ (id <$> sort_by_id (inbound_media messages)))%list /\
  saved (events r.2)
    = (saved (events s) ++ (result_id <$> successes results))%list /\
  (result_id <$> results) = (id <$> sort_by_id (inbound_media messages)) /\
  pages_fetched (events r.2) = pages_fetched (events s).
Proof.
  intros r results. subst r. rewrite download_media_messages_run.
  fold results. cbn [snd events].
  pose proof (bot_worklist_media messages start_index) as Hall.
  assert (results.*1 = bot_worklist messages start_index) as Hfst
    by apply with_outcomes_fst.
  assert ((result_id <$> results) = (id <$> sort_by_id (inbound_media messages)))
    as Hids.
  { transitivity (id <$> (results.*1).*2).
    - by rewrite <- !list_fmap_compose.
    - rewrite Hfst. unfold bot_worklist. by rewrite enumerate_snd. }
  unfold attempted, saved, pages_fetched. rewrite !omap_app.
  fold (attempted (batch_events false base_dir results)).
  fold (saved (batch_events false base_dir results)).
  fold (pages_fetched (batch_events false base_dir results)).
  rewrite attempted_batch, saved_batch, pages_fetched_batch by (by rewrite Hfst).
  rewrite Hids. by destruct (inbound_media messages); simpl; rewrite ?app_nil_r.
Qed.

Lemma Safe_log seen e s : quiet e -> Safe seen s -> Safe seen (log e s).
Proof.
  intros He [H1 H2 H3].
  assert (attempted (events (log e s)) = attempted (events s)) as Ha.
  { unfold attempted, log. simpl. rewrite omap_app. destruct e; simpl in *;
      try done; by rewrite app_nil_r. }
  assert (saved (events (log e s)) = saved (events s)) as Hs.
  { unfold saved, log. simpl. rewrite omap_app. destruct e; simpl in *;
      try done; by rewrite app_nil_r. }
  split; by rewrite ?Ha, ?Hs.
Qed.

Lemma Safe_page oracle seen wm messages out_dir start_index s :
  NoDup (id <$> messages) ->
  Safe seen s ->
  let new_messages := new_messages_of wm seen messages in
  Safe (mark_media seen new_messages)
    (download_media_messages oracle new_messages out_dir start_index s).2.
Proof.
  intros Hnd [H1 H2 H3] new_messages.
  destruct (download_media_messages_trace oracle new_messages out_dir
              start_index s) as (Ha & Hs & Hids & _).
  set (ids := id <$> sort_by_id (inbound_media new_messages)) in *.
  assert (forall i, i ∈ ids ->
            exists m, m ∈ new_messages /\ has_media m = true /\ id m = i) as Hin.
  { intros i Hi. unfold ids in Hi. rewrite sort_by_id_perm in Hi.
    apply list_elem_of_fmap in Hi as (m & -> & Hm).
    apply list_elem_of_In, filter_In in Hm as [Hm [_ Hmedia]%andb_true_iff].
    exists m. by rewrite list_elem_of_In. }
  split.
  - rewrite Ha. apply NoDup_app. split; [done|]. split.
    + intros i Hi Hi'. apply Hin in Hi' as (m & Hm & _ & <-).
      apply elem_of_new_messages in Hm as (_ & _ & Hfresh). by apply Hfresh, H3.
    + subst ids. rewrite sort_by_id_perm.
      by apply NoDup_ids_filter, NoDup_ids_filter.
  - rewrite Ha, Hs. apply sublist_app; [done|].
    subst ids. rewrite <- Hids. apply fmap_sublist, filter_sublist.
  - intros i. rewrite Ha, elem_of_app, elem_of_mark_media.
    intros [Hi|Hi]; [left; by apply H3 | right; by apply Hin].
Qed.

Lemma pagination_safe bot out_dir max_pages wm fuel h s :
  (forall page, NoDup (id <$> recent_messages bot page)) ->
  Safe (downloaded_msg_ids h) s ->
  let r := pagination fuel bot out_dir max_pages wm h s in
  Safe (downloaded_msg_ids r.1.2) r.2.
Proof.
  intros Hnd. revert h s. induction fuel as [|fuel IH]; intros h s Hsafe.
  - cbn [pagination]. by destruct (negb _).
  - rewrite pagination_S. destruct (negb _); [done|]. cbv zeta.
    pose proof (Safe_log _ (GetMessages (current_page h)) _ I Hsafe) as Hsafe1.
    pose proof (Safe_page (bot_outcome bot) _ wm _ out_dir (total_downloaded h) _
                  (Hnd (current_page h)) Hsafe1) as Hsafe2.
    fold (page_new bot wm h) in Hsafe2. cbv zeta in Hsafe2.
    destruct (page_new bot wm h) as [|m l] eqn:E; [done|].
    destruct (find_next_page_button _ _) as [e|[[msg btn]|]]; [done| |done].
    apply IH. by apply Safe_log.
Qed.

Lemma interact_with_bot_unfold fuel bot start_param out_dir max_pages s :
  interact_with_bot fuel bot start_param out_dir max_pages s =
  pagination fuel bot out_dir max_pages (watermark bot)
    {| total_downloaded := 0; current_page := 1; downloaded_msg_ids := ∅ |}
    (log (Send ("/start " +:+ start_param)) s).
Proof. reflexivity. Qed.

Lemma Safe_start : Safe ∅ start.
Proof. split; simpl; [constructor | constructor | by intros i ?%elem_of_nil]. Qed.

(** C1.  Given that one fetch never lists a message id twice, a run of
    [interact_with_bot] starts at most one transfer, and saves at most one
    file, per message id, however long it runs, whatever the pages list
    again and whichever transfers fail.  The id of every transfer started,
    failed or not, is in the dedup set; the new messages of a page are
    those whose id is not in the set; and every new message with media is
    in the set that the page leaves. *)
Theorem no_message_downloaded_twice (bot : Bot) (start_param : string)
    (out_dir : Path) (max_pages : Z) (fuel : nat) :
  (forall page, NoDup (id <$> recent_messages bot page)) ->
  let r := interact_with_bot fuel bot start_param out_dir max_pages start in
  NoDup (attempted (events r.2)) /\
  NoDup (saved (events r.2)) /\
  (forall i, i ∈ attempted (events r.2) -> i ∈ downloaded_msg_ids r.1.2) /\
  (forall wm seen messages m,
     m ∈ new_messages_of wm seen messages -> id m ∉ seen) /\
  (forall seen new_messages m,
     m ∈ new_messages -> has_media m = true ->
     id m ∈ mark_media seen new_messages).
Proof.
  intros Hnd r. subst r. rewrite interact_with_bot_unfold.
  pose proof (pagination_safe bot out_dir max_pages (watermark bot) fuel
                {| total_downloaded := 0; current_page := 1;
                   downloaded_msg_ids := ∅ |}
                (log (Send ("/start " +:+ start_param)) start) Hnd
                (Safe_log ∅ (Send ("/start " +:+ start_param)) start I
                   Safe_start)) as [H1 H2 H3].
  split; [done|]. split; [by eapply sublist_NoDup|]. split; [done|]. split.
  - intros wm seen messages m Hm. by apply elem_of_new_messages in Hm as (_ & _ & ?).
  - intros seen new_messages m Hm Hmedia. apply elem_of_mark_media.
    right. by exists m.
Qed.

Lemma endless_bot_pages page : NoDup (id <$> recent_messages endless_bot page).
Proof.
  simpl. apply NoDup_cons. split; [|apply NoDup_singleton].
  rewrite list_elem_of_singleton. lia.
Qed.

Lemma no_message_downloaded_twice_witness :
  let r := interact_with_bot 3 endless_bot "x" ["out"] 3 start in
  attempted (events r.2) = [101; 102; 103] /\
  saved (events r.2) = [101] /\
  NoDup (attempted (events r.2)) /\ NoDup (saved (events r.2)).
Proof.
  destruct (no_message_downloaded_twice endless_bot "x" ["out"] 3 3
              endless_bot_pages) as (Ha & Hs & _).
  split; [reflexivity|]. split; [reflexivity|]. split; [exact Ha | exact Hs].
Defined.

Lemma pages_fetched_log e s :
  pages_fetched (events (log e s))
  = (pages_fetched (events s)
     ++ match e with GetMessages page => [page] | _ => [] end)%list.
Proof. unfold pages_fetched, log. simpl. rewrite omap_app. by destruct e. Qed.








(** Without a limit the same bot keeps the loop going: the fuel runs
    out. *)
Example endless_bot_unlimited :
  (interact_with_bot 25 endless_bot "x" ["out"] 0 start).1.1 = None.
Proof. vm_compute. reflexivity. Qed.

(** * Properties of the rest of the scripts *)

(** ** Comment and topic flows: retrieval *)

Lemma filter_older_split l1 x l2 :
  StronglySorted newer_first (l1 ++ x :: l2) ->
  List.filter (fun m => id m <? id x) (l1 ++ x :: l2) = l2.
Proof.
  intros [Hall [H1 H2]]%StronglySorted_app.
  apply StronglySorted_cons in H2 as [Hx H2].
  rewrite List.filter_app. simpl. rewrite Z.ltb_irrefl.
  assert (List.filter (fun m => id m <? id x) l1 = []) as ->.
  { clear H1. induction l1 as [|a l1 IH]; [done|].
    simpl. assert (id x < id a) as Ha by (apply Hall; [left|left]).
    assert ((id a <? id x) = false) as -> by (apply Z.ltb_ge; lia). apply IH.
    intros y Hy z Hz. apply Hall; [by right|done]. }
  simpl. clear -Hx. induction Hx as [|a l2 Ha _ IH]; [done|].
  simpl. unfold newer_first in Ha. apply Z.ltb_lt in Ha as ->. by rewrite IH.
Qed.

Lemma fetch_batches_older thread :
  StronglySorted newer_first thread ->
  Forall (fun m => 0 < id m) thread ->
  forall fuel pre offset_id acc,
    thread = (pre ++ older thread offset_id)%list ->
    (length (older thread offset_id) < fuel)%nat ->
    fetch_batches fuel (served thread) offset_id acc
    = Some (acc ++ older thread offset_id)%list.
Proof.
  intros Hsorted Hpos. induction fuel as [|fuel IH]; intros pre o acc Hpre Hfuel;
    [lia|].
  cbn [fetch_batches]. set (rest := older thread o) in *.
  change (served thread o) with (take batch_size rest).
  destruct (take batch_size rest) as [|b batch'] eqn:Ebatch.
  - apply take_nil_inv in Ebatch as [?| ->]; [done|]. by rewrite app_nil_r.
  - rewrite <- Ebatch.
    destruct (length (take batch_size rest) <? batch_size)%nat eqn:Hshort.
    + apply Nat.ltb_lt in Hshort. rewrite length_take in Hshort.
      rewrite take_ge by lia. done.
    + apply Nat.ltb_ge in Hshort. rewrite length_take in Hshort.
      assert (batch_size <= length rest)%nat as Hlen by lia.
      destruct (last (take batch_size rest)) as [x|] eqn:Elast;
        [|apply last_None in Elast; by rewrite Elast in Ebatch].
      apply last_Some in Elast as [front Efront].
      assert (rest = (front ++ x :: drop batch_size rest)%list) as Hrest.
      { rewrite <- (take_drop batch_size rest) at 1. rewrite Efront.
        by rewrite <- app_assoc. }
      assert (0 < id x) as Hx.
      { eapply (proj1 (Forall_forall _ _) Hpos). rewrite Hpre, Hrest.
        apply elem_of_app. right. apply elem_of_app. right. left. }
      assert (older thread (id x) = drop batch_size rest) as Holder.
      { unfold older.
        assert ((id x =? 0) = false) as -> by (apply Z.eqb_neq; lia).
        rewrite Hpre at 1. rewrite Hrest at 1.
        rewrite app_assoc. apply filter_older_split.
        rewrite <- app_assoc, <- Hrest, <- Hpre. exact Hsorted. }
      rewrite (IH (pre ++ front ++ [x])%list).
      * rewrite Holder, <- app_assoc. by rewrite take_drop.
      * rewrite Holder. rewrite <- !app_assoc. simpl.
        by rewrite <- Hrest.
      * rewrite Holder, length_drop. unfold batch_size in *. lia.
Qed.

(** X1.  Against a server that holds the thread newest first, with
    positive ids, and answers [get_messages] with the first [batch_size]
    messages older than the offset, the retrieval loop returns the whole
    thread, in order, once it has more fuel than the thread has
    messages. *)
Theorem fetch_batches_complete (thread : list Message) (fuel : nat) :
  StronglySorted newer_first thread ->
  Forall (fun m => 0 < id m) thread ->
  (length thread < fuel)%nat ->
  fetch_batches fuel (served thread) 0 [] = Some thread.
Proof.
  intros Hsorted Hpos Hfuel.
  rewrite (fetch_batches_older thread Hsorted Hpos fuel [] 0 []); done.
Qed.

Lemma long_thread_sorted_250 :
  StronglySorted newer_first (long_thread 250) /\
  Forall (fun m => 0 < id m) (long_thread 250).
Proof. split; apply (bool_decide_unpack _); by vm_compute. Qed.

Lemma fetch_batches_complete_witness :
  fetch_batches 251 (served (long_thread 250)) 0 [] = Some (long_thread 250).
Proof.
  apply fetch_batches_complete.
  - apply long_thread_sorted_250.
  - apply long_thread_sorted_250.
  - vm_compute. lia.
Defined.












(** ** Bot flow: the books of the loop *)

Lemma clicks_batch lazy_dir base_dir (results : list ((Z * Message) * Outcome)) :
  clicks (batch_events lazy_dir base_dir results) = [].
Proof.
  induction results as [|[[idx m] o] results IH]; [done|].
  rewrite batch_events_cons. unfold clicks in *. rewrite omap_app, IH.
  unfold item_events. simpl. destruct (classify m) as [[kind ext]|]; [|done].
  by destruct lazy_dir, o.
Qed.

(** What one call of [download_media_messages] adds to the books. *)
Lemma download_media_messages_books oracle messages base_dir start_index s :
  let r := download_media_messages oracle messages base_dir start_index s in
  r.1 = Z.of_nat (length (saved (events r.2))) - Z.of_nat (length (saved (events s)))
  /\ clicks (events r.2) = clicks (events s).
Proof.
  intros r.
  destruct (download_media_messages_trace oracle messages base_dir start_index s)
    as (_ & Hs & _ & _). fold r in Hs. cbv zeta in Hs.
  split.
  - rewrite Hs, length_app, length_fmap. subst r.
    rewrite download_media_messages_run. simpl. lia.
  - subst r. rewrite download_media_messages_run. cbn [snd events].
    unfold clicks. rewrite !omap_app.
    fold (clicks (batch_events false base_dir
            (with_outcomes oracle (transfers s) (bot_worklist messages start_index)))).
    rewrite clicks_batch. destruct (inbound_media messages); simpl;
      by rewrite ?app_nil_r.
Qed.

Lemma find_next_page_button_Some messages current_page m btn :
  find_next_page_button messages current_page = inr (Some (m, btn)) ->
  m ∈ messages /\ out m = false /\
  btn ∈ concat (buttons m) /\ qualifying btn = true.
Proof.
  rewrite find_next_page_button_choose.
  destruct (most_recent (candidates messages)) as [latest|] eqn:E; [|done].
  destruct (most_recent_candidate _ _ E) as (Hin & Hout & _).
  destruct (existsb undecodable _); [done|].
  unfold choose_button.
  assert (forall f b,
            last (List.filter f (List.filter qualifying (concat (buttons latest))))
            = Some b ->
            b ∈ concat (buttons latest) /\ qualifying b = true) as Hlast.
  { intros f b Hb%last_Some_elem_of.
    apply list_elem_of_In, filter_In in Hb as [[Hb Hq]%filter_In _].
    by rewrite list_elem_of_In. }
  destruct (last (List.filter has_arrow _)) as [b|] eqn:Ea.
  - intros [= <- <-]. split; [done|]. split; [done|]. by eapply Hlast.
  - destruct (last (List.filter (has_page_number _) _)) as [b|] eqn:En; [|done].
    intros [= <- <-]. split; [done|]. split; [done|]. by eapply Hlast.
Qed.

Lemma qualifying_data btn :
  qualifying btn = true ->
  exists d, data btn = Some d /\ d <> "" /\ d <> "page_info".
Proof.
  unfold qualifying, has_callback.
  intros [Hc Hp%negb_true_iff%bool_decide_eq_false]%andb_true_iff.
  destruct (data btn) as [d|]; [|done]. exists d. split; [done|].
  split; [by destruct d | congruence].
Qed.

Lemma log_projections e s :
  attempted (events (log e s))
    = (attempted (events s)
       ++ match e with Transfer msg _ _ _ => [msg] | _ => [] end)%list /\
  saved (events (log e s))
    = (saved (events s)
       ++ match e with Rename msg _ _ _ true => [msg] | _ => [] end)%list /\
  clicks (events (log e s))
    = (clicks (events s)
       ++ match e with Click msg d => [(msg, d)] | _ => [] end)%list.
Proof.
  unfold attempted, saved, clicks, log. simpl. rewrite !omap_app.
  repeat split; destruct e as [| | ? ? ? ? []| | | |]; done.
Qed.

Lemma Books_start wm start_param :
  Books wm {| total_downloaded := 0; current_page := 1; downloaded_msg_ids := ∅ |}
    (log (Send ("/start " +:+ start_param)) start).
Proof.
  split; simpl; try done; try constructor.
  by intros i ?%elem_of_nil.
Qed.

Lemma pagination_books bot out_dir max_pages wm fuel h s :
  Books wm h s ->
  closing wm (pagination fuel bot out_dir max_pages wm h s).
Proof.
  assert (Hhead : forall e h s, (e = Some PageLimit \/ e = None) ->
            Books wm h s -> closing wm (e, h, s)).
  { intros e h0 s0 He [B1 B2 B3 B4 B5 B6]. unfold closing. cbn [fst snd].
    rewrite B4, length_seqZ, Z2Nat.id by lia.
    split; [done|]. split; [done|]. split; [done|]. split; [done|].
    rewrite B5. destruct He as [-> | ->]; split; lia. }
  revert h s. induction fuel as [|fuel IH]; intros h s HB.
  - cbn [pagination]. destruct (negb _); unfold ret; apply Hhead; auto.
  - rewrite pagination_S. destruct (negb _); [apply Hhead; auto|]. cbv zeta.
    destruct HB as [B1 B2 B3 B4 B5 B6].
    set (s1 := log (GetMessages (current_page h)) s).
    destruct (log_projections (GetMessages (current_page h)) s) as (Ha1 & Hs1 & Hc1).
    fold s1 in Ha1, Hs1, Hc1. rewrite app_nil_r in Ha1, Hs1, Hc1.
    assert (pages_fetched (events s1) = seqZ 1 (current_page h)) as Hp1.
    { unfold s1. rewrite pages_fetched_log, B4.
      replace (current_page h) with (Z.of_nat (S (Z.to_nat (current_page h - 1))))
        at 3 by lia.
      rewrite seqZ_S, Z2Nat.id by lia. do 2 f_equal. lia. }
    destruct (page_new bot wm h) as [|m l] eqn:E.
    { unfold closing. cbn [fst snd]. rewrite Hp1, Hs1, Ha1, Hc1, length_seqZ.
      rewrite Z2Nat.id by lia.
      split; [done|]. split; [done|]. split; [done|]. split; [done|].
      rewrite B5. split; lia. }
    set (r := download_media_messages (bot_outcome bot) (m :: l) out_dir
                (total_downloaded h) s1).
    destruct (download_media_messages_trace (bot_outcome bot) (m :: l) out_dir
                (total_downloaded h) s1) as (Ha & _ & _ & Hp).
    destruct (download_media_messages_books (bot_outcome bot) (m :: l) out_dir
                (total_downloaded h) s1) as (Hcount & Hc).
    fold r in Ha, Hp, Hcount, Hc. cbv zeta in Ha, Hp, Hcount, Hc.
    assert (forall i, i ∈ attempted (events r.2) -> wm < i) as Hnew.
    { intros i. rewrite Ha, Ha1, elem_of_app. intros [Hi|Hi]; [by apply B2|].
      rewrite sort_by_id_perm in Hi.
      apply list_elem_of_fmap in Hi as (x & -> & Hx).
      apply list_elem_of_In, filter_In in Hx as [Hx _].
      apply list_elem_of_In in Hx. rewrite <- E in Hx.
      by apply elem_of_new_messages in Hx as (_ & ? & _). }
    assert (total_downloaded h + r.1 = Z.of_nat (length (saved (events r.2))))
      as Htotal by (rewrite Hcount, Hs1, B1; lia).
    destruct (find_next_page_button _ _) as [e0|[[msg btn]|]] eqn:F.
    + unfold closing. cbn [fst snd total_downloaded current_page].
      rewrite Hp, Hp1, Hc, Hc1, length_seqZ, Z2Nat.id by lia.
      split; [done|]. split; [done|]. split; [done|]. split; [done|].
      rewrite B5. split; lia.
    + apply IH.
      destruct (log_projections (Click (id msg) (data btn)) r.2) as (Ha3 & Hs3 & Hc3).
      rewrite app_nil_r in Ha3, Hs3.
      apply find_next_page_button_Some in F as (Hmsg & _ & _ & Hq).
      split; cbn [total_downloaded current_page].
      * by rewrite Hs3.
      * intros i. rewrite Ha3. apply Hnew.
      * rewrite Hc3, Hc, Hc1. apply Forall_app. split; [done|].
        constructor; [|constructor]. split; simpl.
        -- rewrite <- E in Hmsg. by apply elem_of_new_messages in Hmsg as (_ & ? & _).
        -- by apply qualifying_data.
      * rewrite pages_fetched_log, app_nil_r, Hp, Hp1. f_equal. lia.
      * rewrite Hc3, Hc, Hc1, length_app, B5. simpl. lia.
      * lia.
    + unfold closing. cbn [fst snd total_downloaded current_page].
      rewrite Hp, Hp1, Hc, Hc1, length_seqZ, Z2Nat.id by lia.
      split; [done|]. split; [done|]. split; [done|]. split; [done|].
      rewrite B5. split; lia.
Qed.

Lemma interact_with_bot_closing fuel bot start_param out_dir max_pages :
  closing (watermark bot)
    (interact_with_bot fuel bot start_param out_dir max_pages start).
Proof.
  rewrite interact_with_bot_unfold. apply pagination_books, Books_start.
Qed.

(** X4.  Whenever a run of [interact_with_bot] is observed (loop left, or
    fuel spent), [total_downloaded] is the number of files that reached
    their final name: an item whose transfer or rename failed is not
    counted, and nothing else is. *)
Theorem total_downloaded_counts_saved (fuel : nat) (bot : Bot)
    (start_param : string) (out_dir : Path) (max_pages : Z) :
  let r := interact_with_bot fuel bot start_param out_dir max_pages start in
  total_downloaded r.1.2 = Z.of_nat (length (saved (events r.2))).
Proof.
  intros r. by destruct (interact_with_bot_closing fuel bot start_param out_dir
                           max_pages) as (H & _).
Qed.

(** X5.  A run of [interact_with_bot] never starts a transfer for a
    message that was in the conversation before the command was sent:
    every id transferred is above the watermark, the id of the newest
    message seen before the command. *)
Theorem only_replies_are_downloaded (fuel : nat) (bot : Bot)
    (start_param : string) (out_dir : Path) (max_pages : Z) (i : Z) :
  let r := interact_with_bot fuel bot start_param out_dir max_pages start in
  i ∈ attempted (events r.2) -> watermark bot < i.
Proof.
  intros r. destruct (interact_with_bot_closing fuel bot start_param out_dir
                        max_pages) as (_ & H & _). apply H.
Qed.

Lemma only_replies_are_downloaded_witness :
  102 ∈ attempted
          (events (interact_with_bot 3 endless_bot "x" ["out"] 3 start).2) /\
  watermark endless_bot < 102.
Proof.
  assert (102 ∈ attempted
            (events (interact_with_bot 3 endless_bot "x" ["out"] 3 start).2))
    as Hin by (apply (bool_decide_unpack _); by vm_compute).
  split; [exact Hin|].
  exact (only_replies_are_downloaded 3 endless_bot "x" ["out"] 3 102 Hin).
Defined.

(** X6.  Every click of a run of [interact_with_bot] is made on a message
    newer than the watermark and sends callback data that is present, not
    empty and not [page_info]: a URL button or the page indicator is
    never clicked. *)
Theorem clicks_send_callback_data (fuel : nat) (bot : Bot)
    (start_param : string) (out_dir : Path) (max_pages : Z) :
  let r := interact_with_bot fuel bot start_param out_dir max_pages start in
  Forall (clickable (watermark bot)) (clicks (events r.2)).
Proof.
  intros r. by destruct (interact_with_bot_closing fuel bot start_param out_dir
                           max_pages) as (_ & _ & H & _).
Qed.

(** X7.  The pages of a run are fetched in order, 1, 2, 3, ..., one click
    between two fetches.  When the loop is left on a page without new
    messages or without a next-page button, or by the exception of
    [find_next_page_button], the clicks are one less than the fetches;
    when it is left by the page limit (or the fuel is spent), they are as
    many: the page that the last click asked for is not fetched. *)
Theorem pages_and_clicks (fuel : nat) (bot : Bot) (start_param : string)
    (out_dir : Path) (max_pages : Z) :
  let r := interact_with_bot fuel bot start_param out_dir max_pages start in
  let fetched := length (pages_fetched (events r.2)) in
  pages_fetched (events r.2) = seqZ 1 (Z.of_nat fetched) /\
  match r.1.1 with
  | Some Stalled | Some Done | Some (Aborted _) =>
      (length (clicks (events r.2)) + 1)%nat = fetched /\
      current_page r.1.2 = Z.of_nat fetched
  | Some PageLimit | None =>
      length (clicks (events r.2)) = fetched /\
      current_page r.1.2 = Z.of_nat fetched + 1
  end.
Proof.
  intros r fetched.
  by destruct (interact_with_bot_closing fuel bot start_param out_dir max_pages)
    as (_ & _ & _ & H).
Qed.

Example pages_and_clicks_at_the_limit :
  let r := interact_with_bot 3 endless_bot "x" ["out"] 3 start in
  r.1.1 = Some PageLimit /\
  pages_fetched (events r.2) = [1; 2; 3] /\
  clicks (events r.2) = [(101, Some "next"); (102, Some "next"); (103, Some "next")].
Proof. by vm_compute. Qed.

(** ** Bot flow: the numbering of the files *)

Lemma transfer_names_download_media_messages oracle messages base_dir start_index s :
  transfer_names
    (events (download_media_messages oracle messages base_dir start_index s).2)
  = (transfer_names (events s)
     ++ omap item_name (bot_worklist messages start_index))%list.
Proof.
  rewrite download_media_messages_run. cbn [snd events].
  unfold transfer_names. rewrite !omap_app.
  fold (transfer_names (batch_events false base_dir
          (with_outcomes oracle (transfers s) (bot_worklist messages start_index)))).
  rewrite transfer_names_batch, with_outcomes_fst.
  by destruct (inbound_media messages).
Qed.

Lemma enumerate_app {A} i (l k : list A) :
  enumerate i (l ++ k)
  = (enumerate i l ++ enumerate (i + Z.of_nat (length l)) k)%list.
Proof.
  revert i. induction l as [|x l IH]; intros i; simpl.
  - by rewrite Z.add_0_r.
  - rewrite IH. do 3 f_equal. lia.
Qed.

Lemma numbered_lookup_media msgs start k i name :
  Forall (fun m => has_media m = true) msgs ->
  omap item_name (enumerate start msgs) !! k = Some (i, name) ->
  exists ext, name = temp_filename (start + Z.of_nat k) ext.
Proof.
  intros Hall. revert start k. induction Hall as [|m msgs Hm _ IH]; intros start k;
    [done|].
  cbn [enumerate omap list_omap]. unfold item_name at 1. simpl.
  apply has_media_classify in Hm as [[kind ext] ->]. simpl.
  destruct k as [|k]; simpl.
  - intros [= <- <-]. exists ext. by rewrite Z.add_0_r.
  - intros [e ->]%IH. exists e. f_equal. lia.
Qed.

Lemma pagination_numbered bot out_dir max_pages wm fuel h s msgs :
  all_completed (bot_outcome bot) ->
  Forall (fun m => has_media m = true) msgs ->
  transfer_names (events s) = omap item_name (enumerate 1 msgs) ->
  total_downloaded h = Z.of_nat (length msgs) ->
  exists msgs',
    Forall (fun m => has_media m = true) msgs' /\
    transfer_names (events (pagination fuel bot out_dir max_pages wm h s).2)
    = omap item_name (enumerate 1 msgs').
Proof.
  intros Hok. revert h s msgs. induction fuel as [|fuel IH]; intros h s msgs Hm Hn Ht.
  - cbn [pagination]. destruct (negb _); by exists msgs.
  - rewrite pagination_S. destruct (negb _); [by exists msgs|]. cbv zeta.
    assert (forall e, quiet e ->
              forall s0, transfer_names (events (log e s0)) = transfer_names (events s0))
      as Hlog.
    { intros e He s0. unfold transfer_names, log. simpl. rewrite omap_app.
      destruct e; simpl in *; try done; by rewrite app_nil_r. }
    destruct (page_new bot wm h) as [|m l] eqn:E.
    { exists msgs. split; [done|]. cbn [snd]. by rewrite Hlog. }
    set (s1 := log (GetMessages (current_page h)) s).
    set (page := sort_by_id (inbound_media (m :: l))).
    assert (Forall (fun m => has_media m = true) page) as Hpage.
    { apply sort_by_id_Forall. eapply Forall_impl; [apply inbound_media_Forall|].
      by intros ? [? ?]. }
    assert (transfer_names
              (events (download_media_messages (bot_outcome bot) (m :: l) out_dir
                         (total_downloaded h) s1).2)
            = omap item_name (enumerate 1 (msgs ++ page))) as Hnames.
    { rewrite transfer_names_download_media_messages. unfold s1.
      rewrite Hlog, Hn, enumerate_app, omap_app by done.
      unfold bot_worklist. fold page. rewrite Ht. do 3 f_equal. lia. }
    assert ((download_media_messages (bot_outcome bot) (m :: l) out_dir
               (total_downloaded h) s1).1 = Z.of_nat (length page)) as Hcount.
    { rewrite download_media_messages_run. cbn [fst].
      rewrite successes_all by done. unfold bot_worklist. fold page.
      by rewrite <- (length_fmap snd), enumerate_snd. }
    destruct (find_next_page_button _ _) as [e0|[[msg btn]|]].
    + exists (msgs ++ page)%list. split; [by apply Forall_app|done].
    + apply (IH _ _ (msgs ++ page)%list).
      * by apply Forall_app.
      * by rewrite Hlog.
      * cbn [total_downloaded]. rewrite Hcount, Ht, length_app. lia.
    + exists (msgs ++ page)%list. split; [by apply Forall_app|done].
Qed.

(** X8.  In a run of [interact_with_bot] where every transfer and rename
    goes through, the files are numbered in the order of their transfers,
    across pages: the transfer of rank [k], counting from zero, is
    written under the index [k + 1]. *)
Theorem files_numbered_in_order (fuel : nat) (bot : Bot) (start_param : string)
    (out_dir : Path) (max_pages : Z) (k : nat) (i : Z) (name : string) :
  all_completed (bot_outcome bot) ->
  let r := interact_with_bot fuel bot start_param out_dir max_pages start in
  transfer_names (events r.2) !! k = Some (i, name) ->
  exists ext, name = temp_filename (Z.of_nat k + 1) ext.
Proof.
  intros Hok r. subst r. rewrite interact_with_bot_unfold.
  destruct (pagination_numbered bot out_dir max_pages (watermark bot) fuel
              {| total_downloaded := 0; current_page := 1;
                 downloaded_msg_ids := ∅ |}
              (log (Send ("/start " +:+ start_param)) start) [] Hok)
    as (msgs & Hmedia & ->); [constructor|done|done|].
  intros [ext ->]%numbered_lookup_media; [|done]. exists ext. f_equal. lia.
Qed.

Lemma files_numbered_in_order_witness :
  transfer_names (events (interact_with_bot 3 steady_bot "x" ["out"] 3 start).2)
    !! 2%nat = Some (103, "003.jpg") /\
  exists ext, "003.jpg" = temp_filename (Z.of_nat 2 + 1) ext.
Proof.
  split; [reflexivity|].
  apply (files_numbered_in_order 3 steady_bot "x" ["out"] 3 2 103 "003.jpg").
  - intros t. reflexivity.
  - reflexivity.
Defined.

(** After a failure an index is used again: the count of the files saved,
    not of the transfers started, numbers the next page. *)
Example index_reused_after_failure :
  transfer_names (events (interact_with_bot 3 endless_bot "x" ["out"] 3 start).2)
  = [(101, "001.jpg"); (102, "002.jpg"); (103, "002.jpg")].
Proof. reflexivity. Qed.

(** ** Decimal numerals: what [str] writes is read back *)

Lemma int_digits_digit c k s acc b :
  Ascii.eqb c "_" = false -> Py.is_int_space c = false -> Py.digit_val c = Some k ->
  Py.int_digits (String c s) acc b = Py.int_digits s (10 * acc + k) true.
Proof. intros H1 H2 H3. cbn [Py.int_digits]. by rewrite H1, H2, H3. Qed.

Lemma int_digits_acc d p :
  Py.int_digits (NilEmpty.string_of_uint d) (Z.pos p) true
  = Some (Z.pos (Pos.of_uint_acc d p)).
Proof.
  revert p. induction d; intros p; cbn [NilEmpty.string_of_uint Pos.of_uint_acc];
    [done|..];
    (erewrite int_digits_digit by reflexivity);
    rewrite <- IHd; f_equal; simpl (Z.of_nat _); lia.
Qed.

Lemma int_digits_zero d b :
  d <> Decimal.Nil \/ b = true ->
  Py.int_digits (NilEmpty.string_of_uint d) 0 b = Some (Z.of_N (Pos.of_uint d)).
Proof.
  revert b. induction d; intros b Hd; cbn [NilEmpty.string_of_uint Pos.of_uint].
  - destruct Hd as [?| ->]; done.
  - erewrite int_digits_digit by reflexivity. apply (IHd true). by right.
  - erewrite int_digits_digit by reflexivity. apply (int_digits_acc d 1).
  - erewrite int_digits_digit by reflexivity. apply (int_digits_acc d 2).
  - erewrite int_digits_digit by reflexivity. apply (int_digits_acc d 3).
  - erewrite int_digits_digit by reflexivity. apply (int_digits_acc d 4).
  - erewrite int_digits_digit by reflexivity. apply (int_digits_acc d 5).
  - erewrite int_digits_digit by reflexivity. apply (int_digits_acc d 6).
  - erewrite int_digits_digit by reflexivity. apply (int_digits_acc d 7).
  - erewrite int_digits_digit by reflexivity. apply (int_digits_acc d 8).
  - erewrite int_digits_digit by reflexivity. apply (int_digits_acc d 9).
Qed.

Lemma int_digits_numeral p b :
  Py.int_digits (NilEmpty.string_of_uint (Pos.to_uint p)) 0 b = Some (Z.pos p).
Proof.
  rewrite int_digits_zero by (left; apply DecimalPos.Unsigned.to_uint_nonnil).
  by rewrite DecimalPos.Unsigned.of_to.
Qed.

Lemma numeral_nonnil p :
  NilZero.string_of_uint (Pos.to_uint p) = NilEmpty.string_of_uint (Pos.to_uint p).
Proof.
  pose proof (DecimalPos.Unsigned.to_uint_nonnil p).
  by destruct (Pos.to_uint p).
Qed.

(** An unsigned literal is read by [int_digits] as it stands: its first
    character is a digit, so nothing is stripped and no sign is taken. *)
Lemma int_of_unsigned d :
  d <> Decimal.Nil ->
  Py.int_literal (NilEmpty.string_of_uint d)
  = Py.int_digits (NilEmpty.string_of_uint d) 0 false.
Proof. by destruct d. Qed.

Lemma int_of_negative s :
  Py.int_literal (String "-" s) = Z.opp <$> Py.int_digits s 0 false.
Proof. reflexivity. Qed.

Lemma int_str (n : Z) : Py.int_literal (Py.str n) = Some n.
Proof.
  unfold Py.str. destruct n as [|p|p]; [done|..];
    cbn [Z.to_int NilZero.string_of_int]; rewrite numeral_nonnil.
  - rewrite int_of_unsigned by apply DecimalPos.Unsigned.to_uint_nonnil.
    apply int_digits_numeral.
  - rewrite int_of_negative. by rewrite int_digits_numeral.
Qed.

Lemma int_digits_str_nonneg m b :
  0 <= m -> Py.int_digits (Py.str m) 0 b = Some m.
Proof.
  intros Hm. unfold Py.str. destruct m as [|p|p]; [by destruct b| |lia].
  cbn [Z.to_int NilZero.string_of_int]. rewrite numeral_nonnil.
  apply int_digits_numeral.
Qed.

Lemma zeros_S k :
  String.concat "" (replicate (S k) "0")
  = String "0" (String.concat "" (replicate k "0")).
Proof. by destruct k. Qed.

Lemma append_cons c s t : String c s +:+ t = String c (s +:+ t).
Proof. reflexivity. Qed.

Lemma append_empty t : "" +:+ t = t.
Proof. reflexivity. Qed.

Lemma int_digits_padded k m b :
  0 <= m ->
  Py.int_digits (String.concat "" (replicate k "0") +:+ Py.str m) 0 b = Some m.
Proof.
  intros Hm. revert b. induction k as [|k IH]; intros b.
  - by apply int_digits_str_nonneg.
  - rewrite zeros_S, append_cons.
    erewrite int_digits_digit by reflexivity. apply IH.
Qed.

Lemma int_padded k m :
  0 <= m ->
  Py.int_literal (String.concat "" (replicate k "0") +:+ Py.str m) = Some m.
Proof.
  intros Hm. destruct k as [|k]; [apply int_str|].
  rewrite zeros_S, append_cons.
  change (Py.int_literal (String "0" ?s)) with (Py.int_digits (String "0" s) 0 false).
  erewrite int_digits_digit by reflexivity. by apply int_digits_padded.
Qed.

(** The index of a file name is read back by [int]. *)
Lemma int_fmt_03d (n : Z) : Py.int_literal (Py.fmt_03d n) = Some n.
Proof.
  unfold Py.fmt_03d, Py.pad0. destruct (n <? 0) eqn:Hn.
  - apply Z.ltb_lt in Hn. rewrite append_cons, append_empty, int_of_negative.
    rewrite int_digits_padded by lia. simpl. f_equal. lia.
  - apply Z.ltb_ge in Hn. by apply int_padded.
Qed.

Lemma all_chars_app p s t :
  all_chars p (s +:+ t) = all_chars p s && all_chars p t.
Proof. induction s as [|c s IH]; simpl; [done|]. by rewrite IH, andb_assoc. Qed.

Lemma all_chars_impl (p q : ascii -> bool) s :
  (forall c, p c = true -> q c = true) ->
  all_chars p s = true -> all_chars q s = true.
Proof.
  intros Hpq. induction s as [|c s IH]; simpl; [done|].
  intros [Hc Hs]%andb_true_iff. by rewrite (Hpq c Hc), IH.
Qed.

Lemma numeral_chars_uint d : all_chars numeral_char (NilEmpty.string_of_uint d) = true.
Proof. induction d; simpl; by rewrite ?IHd. Qed.

Lemma numeral_chars_str n : all_chars numeral_char (Py.str n) = true.
Proof.
  unfold Py.str. destruct n as [|p|p]; [done|..];
    cbn [Z.to_int NilZero.string_of_int]; rewrite numeral_nonnil;
    simpl; by rewrite numeral_chars_uint.
Qed.

Lemma numeral_chars_zeros k :
  all_chars numeral_char (String.concat "" (replicate k "0")) = true.
Proof. induction k as [|k IH]; [done|]. rewrite zeros_S. simpl. by rewrite IH. Qed.

Lemma numeral_chars_fmt_03d n : all_chars numeral_char (Py.fmt_03d n) = true.
Proof.
  unfold Py.fmt_03d, Py.pad0. destruct (n <? 0);
    rewrite ?append_cons, ?append_empty; cbn [all_chars];
    by rewrite all_chars_app, numeral_chars_zeros, numeral_chars_str.
Qed.

Lemma take_until_stop stop s c t :
  all_chars (fun c => negb (stop c)) s = true -> stop c = true ->
  take_until stop (s +:+ String c t) = (s, String c t).
Proof.
  intros Hs Hc. induction s as [|a s IH]; simpl in *.
  - by rewrite Hc.
  - apply andb_true_iff in Hs as [Ha Hs]. apply negb_true_iff in Ha.
    by rewrite Ha, (IH Hs).
Qed.

Lemma numeral_split stop s c t s' c' t' :
  (forall a, numeral_char a = true -> stop a = false) ->
  stop c = true -> stop c' = true ->
  all_chars numeral_char s = true -> all_chars numeral_char s' = true ->
  s +:+ String c t = s' +:+ String c' t' -> s = s' /\ t = t'.
Proof.
  intros Hstop Hc Hc' Hs Hs' Heq.
  assert (forall u, all_chars numeral_char u = true ->
            all_chars (fun a => negb (stop a)) u = true) as Hn.
  { intros u. apply all_chars_impl. intros a Ha. by rewrite (Hstop a Ha). }
  pose proof (take_until_stop stop s c t (Hn s Hs) Hc) as H1.
  pose proof (take_until_stop stop s' c' t' (Hn s' Hs') Hc') as H2.
  rewrite Heq, H2 in H1. by injection H1 as -> _ ->.
Qed.

Lemma numeral_char_not (x : ascii) :
  (x = "." \/ x = "_" \/ x = "/")%char ->
  forall a, numeral_char a = true -> Ascii.eqb a x = false.
Proof.
  intros Hx a Ha. apply Ascii.eqb_neq. intros ->.
  destruct Hx as [-> | [-> | ->]]; done.
Qed.

Lemma temp_filename_inj i j ext ext' :
  temp_filename i ext = temp_filename j ext' -> i = j /\ ext = ext'.
Proof.
  intros Heq. unfold temp_filename in Heq.
  apply (numeral_split (fun a => Ascii.eqb a ".")) in Heq as [Hi ->];
    try done; try apply numeral_chars_fmt_03d;
    [|apply numeral_char_not; by left].
  split; [|done]. apply (f_equal Py.int_literal) in Hi.
  rewrite !int_fmt_03d in Hi. by injection Hi.
Qed.

Lemma new_filename_inj t t' temp temp' :
  new_filename t temp = new_filename t' temp' -> t = t' /\ temp = temp'.
Proof.
  intros Heq. unfold new_filename in Heq.
  apply (numeral_split (fun a => Ascii.eqb a "_")) in Heq as [Ht ->];
    try done; try apply numeral_chars_str;
    [|apply numeral_char_not; right; by left].
  split; [|done]. apply (f_equal Py.int_literal) in Ht.
  rewrite !int_str in Ht. by injection Ht.
Qed.

(** X9.  The names of the files are unambiguous: the temporary name
    determines the index and the extension, and the final name determines
    the timestamp and the temporary name. *)
Theorem file_names_injective :
  (forall i j ext ext',
     temp_filename i ext = temp_filename j ext' -> i = j /\ ext = ext') /\
  (forall t t' temp temp',
     new_filename t temp = new_filename t' temp' -> t = t' /\ temp = temp').
Proof. split; [apply temp_filename_inj | apply new_filename_inj]. Qed.

Lemma names_from start msgs name :
  name ∈ (omap item_name (enumerate start msgs)).*2 ->
  exists j ext, start <= j /\ name = temp_filename j ext.
Proof.
  revert start. induction msgs as [|m msgs IH]; intros start; simpl.
  - by intros ?%elem_of_nil.
  - unfold item_name at 1. simpl.
    destruct (classify m) as [[kind ext]|]; simpl.
    + intros [->|Hn]%elem_of_cons.
      * exists start, ext. split; [lia|done].
      * apply IH in Hn as (j & e & Hj & ->). exists j, e. split; [lia|done].
    + intros Hn. apply IH in Hn as (j & e & Hj & ->). exists j, e. split; [lia|done].
Qed.

Lemma names_NoDup start msgs :
  NoDup (omap item_name (enumerate start msgs)).*2.
Proof.
  revert start. induction msgs as [|m msgs IH]; intros start; simpl.
  - constructor.
  - unfold item_name at 1. simpl.
    destruct (classify m) as [[kind ext]|]; simpl; [|apply IH].
    apply NoDup_cons. split; [|apply IH].
    intros (j & e & Hj & Heq)%names_from.
    apply temp_filename_inj in Heq as [-> _]. lia.
Qed.

Lemma transfer_names_download_comments_media oracle comments out_dir start_from :
  transfer_names
    (events (download_comments_media oracle comments out_dir start_from start).2)
  = match comments_worklist comments start_from with
    | Some items => omap item_name items
    | None => []
    end.
Proof.
  destruct (comments_worklist comments start_from) as [items|] eqn:E.
  - rewrite (download_comments_media_run _ _ _ _ _ _ E). cbn [snd events].
    change (events start ++ ?x)%list with x.
    by rewrite transfer_names_batch, with_outcomes_fst.
  - unfold download_comments_media. by rewrite E.
Qed.

Lemma transfer_names_download_topic_media oracle messages out_dir :
  transfer_names (events (download_topic_media oracle messages out_dir start).2)
  = match topic_worklist messages with
    | Some items => omap item_name items
    | None => []
    end.
Proof.
  destruct (topic_worklist messages) as [items|] eqn:E.
  - rewrite (download_topic_media_run _ _ _ _ _ E). cbn [snd events].
    change (events start ++ ?x)%list with x.
    by rewrite transfer_names_batch, with_outcomes_fst.
  - unfold download_topic_media. by rewrite E.
Qed.

(** X10.  Within one batch no two transfers are written under the same
    temporary name: in one call of the bot flow's
    [download_media_messages], and in one run of the comment or topic
    flow, whatever the outcomes. *)
Theorem temp_names_distinct_in_a_batch (oracle : nat -> Outcome)
    (messages : list Message) (out_dir : Path) (n : Z) :
  NoDup (transfer_names
           (events (download_media_messages oracle messages out_dir n start).2)).*2
  /\
  NoDup (transfer_names
           (events (download_comments_media oracle messages out_dir n start).2)).*2
  /\
  NoDup (transfer_names
           (events (download_topic_media oracle messages out_dir start).2)).*2.
Proof.
  split; [|split].
  - rewrite transfer_names_download_media_messages. apply names_NoDup.
  - rewrite transfer_names_download_comments_media.
    destruct (comments_worklist messages n) as [items|] eqn:E; [|constructor].
    apply comments_worklist_items in E as ->. apply names_NoDup.
  - rewrite transfer_names_download_topic_media. unfold topic_worklist.
    destruct (List.filter has_media messages) as [|c l]; [constructor|].
    apply names_NoDup.
Qed.

Lemma contains_slash_numeral s :
  all_chars numeral_char s = true -> Py.contains s "/" = false.
Proof.
  induction s as [|c s IH]; [done|]. simpl all_chars.
  intros [Hc Hs]%andb_true_iff. rewrite contains_slash_cons, (IH Hs).
  rewrite (numeral_char_not "/" (or_intror (or_intror eq_refl)) c Hc). done.
Qed.

Lemma split_slash_head s t :
  Py.contains s "/" = false ->
  Py.split "/" (s +:+ String "/" t) = s :: Py.split "/" t.
Proof.
  induction s as [|c s IH]; [done|].
  rewrite contains_slash_cons. intros [Hc Hs]%orb_false_iff.
  rewrite append_cons. cbn [Py.split]. by rewrite Hc, (IH Hs).
Qed.

Lemma split_leading_slash s : Py.split "/" (String "/" s) = "" :: Py.split "/" s.
Proof. reflexivity. Qed.

Lemma str_nonempty n : Py.truthy (Py.str n) = true.
Proof.
  unfold Py.str. destruct n as [|p|p]; [done| |done].
  cbn [Z.to_int NilZero.string_of_int]. rewrite numeral_nonnil.
  pose proof (DecimalPos.Unsigned.to_uint_nonnil p). by destruct (Pos.to_uint p).
Qed.

Lemma int_within_limit s :
  (Py.digit_count s <= Py.int_max_str_digits)%nat -> Py.int s = Py.int_literal s.
Proof.
  intros Hd. unfold Py.int.
  by assert ((Py.int_max_str_digits <? Py.digit_count s)%nat = false) as ->
    by (apply Nat.ltb_ge; exact Hd).
Qed.

(** X11.  A link is read back: when the host is accepted and the path is
    [/name/n], with [name] not empty and free of [/] and [n] written by
    [str] in no more digits than [int] reads,
    [parse_channel_post_link] and [parse_topic_link] return [name],
    without a leading [@], and [n]. *)
Theorem post_link_round_trip (urlparse : string -> ParseResult)
    (url name : string) (n : Z) :
  netloc (urlparse url) ∈ accepted_hosts ->
  path (urlparse url) = post_path name n ->
  name <> "" -> Py.contains name "/" = false ->
  (Py.digit_count (Py.str n) <= Py.int_max_str_digits)%nat ->
  parse_channel_post_link urlparse Py.int url = inr (strip_at name, n) /\
  parse_topic_link urlparse Py.int url = inr (strip_at name, n).
Proof.
  intros Hhost Hpath Hname Hslash Hdigits.
  assert (path_parts (urlparse url) = [name; Py.str n]) as Hparts.
  { unfold path_parts. rewrite Hpath. unfold post_path.
    rewrite append_cons, append_empty, split_leading_slash.
    change ("/" +:+ Py.str n) with (String "/" (Py.str n)).
    rewrite split_slash_head by done.
    rewrite split_no_slash by apply contains_slash_numeral, numeral_chars_str.
    simpl. rewrite str_nonempty. by destruct name. }
  unfold parse_channel_post_link, parse_topic_link.
  rewrite (bool_decide_eq_true_2 _ Hhost), Hparts. cbn [negb].
  by rewrite (int_within_limit _ Hdigits), int_str.
Qed.

Lemma post_link_round_trip_witness :
  parse_channel_post_link urlparse_plain Py.int "https://t.me/@durov/-17"
  = inr ("durov", -17).
Proof.
  apply (post_link_round_trip urlparse_plain "https://t.me/@durov/-17" "@durov" (-17)).
  - apply (bool_decide_unpack _). by vm_compute.
  - reflexivity.
  - discriminate.
  - reflexivity.
  - apply Nat.leb_le. by vm_compute.
Defined.

(** ** Link parsers together *)

Example parse_bot_deeplink_samples :
  parse_bot_deeplink urlparse_plain parse_qs_plain
    "https://t.me/@ZywjaBotBot?start=55a59508&x=1" = inr ("ZywjaBotBot", "55a59508") /\
  parse_bot_deeplink urlparse_plain parse_qs_plain "https://t.me/ZywjaBotBot?start="
    = inl (LinkRejected (ValueError "缺少start参数")) /\
  parse_bot_deeplink urlparse_plain parse_qs_plain "https://t.me/?start=1"
    = inl (LinkRejected (ValueError "链接路径不完整，缺少Bot用户名")) /\
  parse_bot_deeplink urlparse_plain parse_qs_plain "https://example.org/bot?start=1"
    = inl (LinkRejected InvalidLink).
Proof. repeat split; by vm_compute. Qed.


(** ** Login *)

Lemma rstrip_idem s : rstrip (rstrip s) = rstrip s.
Proof.
  induction s as [|c s IH]; [done|]. simpl.
  destruct (rstrip s) as [|d r] eqn:E.
  - destruct (Py.is_space c) eqn:Hc; simpl; [done|]. by rewrite Hc.
  - cbn [rstrip]. cbn [rstrip] in IH. by rewrite IH.
Qed.

Lemma lstrip_fixed s :
  match s with String c _ => Py.is_space c = false | EmptyString => True end ->
  Py.lstrip s = s.
Proof. destruct s as [|c s]; [done|]. simpl. by intros ->. Qed.

Lemma lstrip_head s :
  match Py.lstrip s with
  | String c _ => Py.is_space c = false
  | EmptyString => True
  end.
Proof.
  induction s as [|c s IH]; [done|]. simpl.
  destruct (Py.is_space c) eqn:Hc; [done|]. simpl. done.
Qed.

Lemma rstrip_head s :
  match s with String c _ => Py.is_space c = false | EmptyString => True end ->
  match rstrip s with
  | String c _ => Py.is_space c = false
  | EmptyString => True
  end.
Proof.
  destruct s as [|c s]; [done|]. simpl. intros Hc.
  destruct (rstrip s); [by rewrite Hc|done].
Qed.

Lemma strip_idem s : strip (strip s) = strip s.
Proof.
  unfold strip.
  rewrite (lstrip_fixed (rstrip (Py.lstrip s))) by apply rstrip_head, lstrip_head.
  apply rstrip_idem.
Qed.

Lemma truthy_trimmed s : Py.truthy (strip s) = true -> trimmed (strip s).
Proof.
  intros H. split; [|apply strip_idem]. by destruct (strip s).
Qed.

Example custom_login_with_password :
  custom_login guarded_account ["  +15550100 "; "12345"; " hunter2"]
  = (Returned true,
     [AskPhone; CodeRequest "+15550100"; AskCode; SignIn "+15550100" "12345";
      AskPassword; SignInPassword "hunter2"]) /\
  custom_login guarded_account ["+15550100"; "12345"; "   "]
  = (Returned false,
     [AskPhone; CodeRequest "+15550100"; AskCode; SignIn "+15550100" "12345";
      AskPassword]) /\
  custom_login guarded_account ["+15550100"; "12345"]
  = (InputClosed,
     [AskPhone; CodeRequest "+15550100"; AskCode; SignIn "+15550100" "12345";
      AskPassword]).
Proof. repeat split; by vm_compute. Qed.

Ltac login_calls :=
  cbn [snd app];
  solve [repeat first [apply List.Forall_nil | apply List.Forall_cons; [by simpl|]]].

Ltac login_case := split; [login_calls | cbn [fst]; split; done].

(** X13.  [custom_login] never hands a blank or untrimmed phone, code or
    password to the client: a blank answer ends the login before the call.
    It returns [True] only right after a sign-in that the client accepted,
    by code or, when the client asked for it, by password; and an
    exception escapes it only from the sign-in by password. *)
Theorem login_calls_are_well_formed (client : Account) (lines : list string) :
  let r := custom_login client lines in
  Forall well_formed_call r.2 /\
  (r.1 = Returned true ->
   exists phone code,
     CodeRequest phone ∈ r.2 /\ send_code_request client phone = CodeSent /\
     ((last r.2 = Some (SignIn phone code) /\
       sign_in client phone code = SignedIn) \/
      (exists password,
         last r.2 = Some (SignInPassword password) /\
         sign_in client phone code = SessionPasswordNeeded /\
         sign_in_password client password = PasswordAccepted))) /\
  (r.1 = Escaped ->
   exists password,
     last r.2 = Some (SignInPassword password) /\
     sign_in_password client password = PasswordFailed).
Proof.
  intros r. subst r. unfold custom_login.
  destruct lines as [|l1 lines]; [login_case|].
  destruct (Py.truthy (strip l1)) eqn:H1; simpl; [|login_case].
  apply truthy_trimmed in H1.
  destruct (send_code_request client (strip l1)) eqn:Hsend;
    [|login_case..].
  destruct lines as [|l2 lines]; [login_case|].
  destruct (Py.truthy (strip l2)) eqn:H2; simpl; [|login_case].
  apply truthy_trimmed in H2.
  destruct (sign_in client (strip l1) (strip l2)) eqn:Hsign;
    [| |login_case..].
  - split; [login_calls|]. split; [|done]. intros _.
    exists (strip l1), (strip l2). split; [by right; left|]. split; [done|]. by left.
  - destruct lines as [|l3 lines]; [login_case|].
    destruct (Py.truthy (strip l3)) eqn:H3; simpl; [|login_case].
    apply truthy_trimmed in H3.
    destruct (sign_in_password client (strip l3)) eqn:Hpw; simpl.
    + split; [login_calls|]. split; [|done]. intros _.
      exists (strip l1), (strip l2). split; [by right; left|]. split; [done|].
      right. by exists (strip l3).
    + login_case.
    + split; [login_calls|]. split; [done|]. intros _.
      by exists (strip l3).
Qed.

(** ** Byte sizes at and below the unit boundaries *)

Lemma round_half_even_exact k d : 0 < d -> round_half_even (k * d) d = k.
Proof.
  intros Hd. unfold round_half_even.
  rewrite Z.mod_mul, Z.div_mul by lia.
  by assert ((2 * 0 <? d) = true) as -> by (apply Z.ltb_lt; lia).
Qed.

Lemma fmt_2f_whole k den :
  0 <= k -> 0 < den -> fmt_2f (k * den) den = Py.str k +:+ ".00".
Proof.
  intros Hk Hden. unfold fmt_2f.
  assert ((k * den <? 0) = false) as -> by (apply Z.ltb_ge; nia).
  rewrite Z.abs_eq by nia.
  replace (100 * (k * den)) with (100 * k * den) by lia.
  rewrite round_half_even_exact by done.
  replace (100 * k) with (k * 100) by lia.
  rewrite Z.mod_mul, Z.div_mul by lia. reflexivity.
Qed.

Lemma fmt_2f_rounds_up n den :
  0 < den -> 1023995 * den <= 1000 * n -> n < 1024 * den ->
  fmt_2f n den = "1024.00".
Proof.
  intros Hden Hlo Hhi. unfold fmt_2f.
  assert ((n <? 0) = false) as -> by (apply Z.ltb_ge; lia).
  rewrite Z.abs_eq by lia.
  assert (round_half_even (100 * n) den = 102400) as ->; [|reflexivity].
  unfold round_half_even.
  assert (100 * n / den = 102399) as Hq.
  { symmetry. apply (Z.div_unique _ _ _ (100 * n - den * 102399)); lia. }
  rewrite Z.mod_eq, Hq by lia.
  destruct (Z.ltb_spec (2 * (100 * n - den * 102399)) den) as [?|_]; [lia|].
  by destruct (Z.ltb_spec den (2 * (100 * n - den * 102399))).
Qed.

Ltac unit_tests :=
  repeat first
    [ match goal with
      | |- context [?a <? ?b] =>
          first [ assert ((a <? b) = false) as -> by (apply Z.ltb_ge; lia)
                | assert ((a <? b) = true) as -> by (apply Z.ltb_lt; lia) ]
      end ].

(** X14.  A count that is a whole number [k] of its unit is printed as
    [k], [.00] and the unit: below 1024 in bytes, and for [k] from 1 to
    1023 in KB, MB and GB; from 1024 GB on the unit is TB and [k] is not
    bounded, as long as the count is below [2^53], where the division is
    exact. *)
Theorem format_bytes_whole_units (u : nat) (k : Z) :
  (u <= 4)%nat ->
  0 <= k ->
  ((0 < u)%nat -> 1 <= k) ->
  ((u < 4)%nat -> k < 1024) ->
  k * 1024 ^ Z.of_nat u < 2 ^ 53 ->
  format_bytes (k * 1024 ^ Z.of_nat u)
  = Py.str k +:+ ".00" +:+ nth u unit_names "".
Proof.
  intros Hu Hk Hlo Hhi _. unfold format_bytes.
  destruct u as [|[|[|[|[|u]]]]]; [..|lia];
    cbn [format_bytes_loop nth unit_names];
    [ change (1024 ^ Z.of_nat 0) with 1
    | change (1024 ^ Z.of_nat 1) with (1024 * 1)
    | change (1024 ^ Z.of_nat 2) with (1024 * (1024 * 1))
    | change (1024 ^ Z.of_nat 3) with (1024 * (1024 * (1024 * 1)))
    | change (1024 ^ Z.of_nat 4) with (1024 * (1024 * (1024 * (1024 * 1)))) ];
    try (specialize (Hlo ltac:(lia))); try (specialize (Hhi ltac:(lia)));
    unit_tests; rewrite fmt_2f_whole by lia; apply append_assoc.
Qed.

Lemma format_bytes_whole_units_witness :
  format_bytes 536870912000 = "500.00GB".
Proof.
  apply (format_bytes_whole_units 3 500); lia.
Defined.

(** X15.  Just below a unit boundary the count is not printed in the
    next unit: from 1023.995 of a unit on, in KB, MB and GB, the text is
    [1024.00] followed by the unit, as for 1048575 bytes, [1024.00KB]. *)
Theorem format_bytes_rounds_up_to_1024 (u : nat) (n : Z) :
  (1 <= u <= 3)%nat ->
  1023995 * 1024 ^ Z.of_nat u <= 1000 * n ->
  n < 1024 ^ Z.of_nat (u + 1) ->
  format_bytes n = "1024.00" +:+ nth u unit_names "".
Proof.
  intros Hu Hlo Hhi. unfold format_bytes.
  destruct u as [|[|[|[|u]]]]; [lia| | | |lia];
    cbn [format_bytes_loop nth unit_names];
    [ change (1024 ^ Z.of_nat 1) with 1024 in Hlo;
      change (1024 ^ Z.of_nat (1 + 1)) with 1048576 in Hhi
    | change (1024 ^ Z.of_nat 2) with 1048576 in Hlo;
      change (1024 ^ Z.of_nat (2 + 1)) with 1073741824 in Hhi
    | change (1024 ^ Z.of_nat 3) with 1073741824 in Hlo;
      change (1024 ^ Z.of_nat (3 + 1)) with 1099511627776 in Hhi ];
    unit_tests; by rewrite fmt_2f_rounds_up by lia.
Qed.

Lemma format_bytes_rounds_up_to_1024_witness :
  format_bytes 1048575 = "1024.00KB".
Proof.
  apply (format_bytes_rounds_up_to_1024 1 1048575); [lia| |]; by vm_compute.
Defined.

(** ** The bot flow and the topic flow on the same messages *)






